(** * Log-Intelligence backend (src/app.py): ingestion, stats and search

    A shallow embedding of the Flask handlers [upload], [stats],
    [analyze] and [search] of [src/app.py], with the pandas calls they
    make modelled
    column by column, as pandas 2.x does them (C parser, [datetime64[ns]]
    timestamps, [astype(str)] of a missing value giving ["nan"]).  Floats
    are IEEE binary64 values, rounded to nearest, ties to even.  The
    global [df] is an explicit state threaded
    through [upload]; every assignment to it is recorded in a trace, so
    that the values a concurrent reader could observe are visible. *)

From Stdlib Require Import String Ascii List ZArith QArith Qround Qabs Qcanon Bool Lia Sorting.Sorted Sorting.Permutation.
Import ListNotations.
Open Scope string_scope.
Open Scope Z_scope.

(* ------------------------------------------------------------------ *)
(** ** Characters and strings (latin1: one [ascii] per byte) *)

Definition code (c : ascii) : Z := Z.of_nat (nat_of_ascii c).

Definition tab : ascii := Ascii.ascii_of_nat 9.

(** [str.isspace] restricted to latin1 code points, used by Python's
    [str.strip()] and [str.split()]. *)
Definition py_space (c : ascii) : bool :=
  let n := code c in
  ((9 <=? n) && (n <=? 13)) || ((28 <=? n) && (n <=? 32))
  || (n =? 133) || (n =? 160).

(** [str.lower] on latin1 letters, as used by [re.IGNORECASE]. *)
Definition fold_case (c : ascii) : ascii :=
  let n := code c in
  if ((65 <=? n) && (n <=? 90)) || ((192 <=? n) && (n <=? 222) && negb (n =? 215))
  then Ascii.ascii_of_nat (Z.to_nat (n + 32)) else c.

Fixpoint split_on (sep : ascii) (s : string) : list string :=
  match s with
  | EmptyString => [EmptyString]
  | String c rest =>
      if Ascii.eqb c sep then EmptyString :: split_on sep rest
      else match split_on sep rest with
           | f :: fs => String c f :: fs
           | [] => [String c EmptyString]
           end
  end.

(* ------------------------------------------------------------------ *)
(** ** [pd.read_csv(path, sep='\t', header=None, names=7 columns,
        on_bad_lines='skip', encoding='latin1')]

    The file is given as its list of lines, split at the line
    terminators (latin1 decoding of a byte never fails).  The C tokenizer
    - skips blank lines ([skip_blank_lines=True]): empty lines and lines
      made of spaces only;
    - tokenizes the first line unconditionally, then sets
      [expected_fields = max(field_count, len(names))];
    - drops every later line with more fields than that
      ([on_bad_lines='skip']) and pads shorter ones with empty fields
      ("missing trailing delimiters");
    - when the first line had more fields than names, the leading extra
      fields become the (implicit) index, and the last 7 the columns.
    Quoting is not modelled: the model reads a double-quote character
    as an ordinary one, while the tokenizer opens a quoted field with it
    (and raises on an unclosed one); see [plain_line].  Each field is
    then NA-filtered with pandas' default [na_values]; a cell is [None]
    for NaN.  Per-column dtype inference is not modelled: every cell is
    kept as its text, and the numeric columns are read from it below. *)

Definition cell := option string.

Definition na_values : list string :=
  [""; "#N/A"; "#N/A N/A"; "#NA"; "-1.#IND"; "-1.#QNAN"; "-NaN"; "-nan";
   "1.#IND"; "1.#QNAN"; "<NA>"; "N/A"; "NA"; "NULL"; "NaN"; "None";
   "n/a"; "nan"; "null"].

Definition to_cell (f : string) : cell :=
  if existsb (String.eqb f) na_values then None else Some f.

Record raw_row := mk_raw_row {
  r_host : cell; r_dash : cell; r_time_epoch : cell; r_method : cell;
  r_url : cell; r_status : cell; r_bytes : cell }.

Definition nfields (l : string) : nat := length (split_on tab l).

Definition pad (e : nat) (fs : list string) : list string :=
  fs ++ repeat EmptyString (e - length fs).

Definition row_of (e : nat) (l : string) : raw_row :=
  let fs := skipn (e - 7) (pad e (split_on tab l)) in
  let f i := to_cell (nth i fs EmptyString) in
  mk_raw_row (f 0%nat) (f 1%nat) (f 2%nat) (f 3%nat) (f 4%nat) (f 5%nat) (f 6%nat).

Definition nonblank (l : string) : bool :=
  negb (forallb (fun c => Ascii.eqb c " ") (list_ascii_of_string l)).


Definition read_csv (lines : list string) : list raw_row :=
  match filter nonblank lines with
  | [] => []
  | l0 :: rest =>
      let e := Nat.max 7 (nfields l0) in
      map (row_of e) (l0 :: filter (fun l => Nat.leb (nfields l) e) rest)
  end.

(* ------------------------------------------------------------------ *)
(** ** IEEE 754 binary64, round to nearest, ties to even

    A double is represented by its exact value in [Q]. *)

(** [n / d] rounded to the nearest integer, ties to even ([d > 0]). *)
Definition rne (n d : Z) : Z :=
  let q := n / d in
  let r := n mod d in
  if 2 * r <? d then q
  else if d <? 2 * r then q + 1
  else if Z.even q then q else q + 1.

(** [numpy.rint] and friends: the nearest integer, ties to even. *)
Definition rint (x : Q) : Z := rne (Qnum x) (Zpos (Qden x)).

(** [floor (log2 (a / b))] for [a, b > 0]. *)
Definition ilog2 (a b : Z) : Z :=
  let k := Z.log2 a - Z.log2 b in
  if k >=? 0 then (if a <? b * 2 ^ k then k - 1 else k)
  else (if a * 2 ^ (- k) <? b then k - 1 else k).

(** Rounding to 53 significant bits, with the subnormal range below
    2^-1022 (last bit 2^-1074) and no upper bound on the exponent. *)
Definition rnd (x : Q) : Q :=
  let a := Qnum x in
  let b := Zpos (Qden x) in
  if a =? 0 then 0 else
  let e := Z.max (ilog2 (Z.abs a) b - 52) (-1074) in
  if e >=? 0 then Qred (rne a (b * 2 ^ e) * 2 ^ e # 1)
  else Qred (rne (a * 2 ^ (- e)) b # Z.to_pos (2 ^ (- e))).

Inductive num := NFin (q : Q) | NInf (neg : bool).

(** The double nearest [x]; a value that rounds to 2^1024 or beyond
    overflows to an infinity. *)
Definition round64 (x : Q) : num :=
  let y := rnd x in
  if Qle_bool (2 ^ 1024 # 1) (Z.abs (Qnum y) # Qden y) then NInf (Qnum x <? 0) else NFin y.

(* ------------------------------------------------------------------ *)
(** ** Numbers: the numeric columns and [pd.to_numeric(..., errors='coerce')]

    The C parser reads a column as [int64] when every cell passes
    [str_to_int64], else as [float64] when every cell passes
    [precise_xstrtod] (or is an infinity word), else as text, which
    [to_numeric] then parses cell by cell with the same [precise_xstrtod]
    and infinity words.  Per cell this gives [parse_num] below: an
    integer numeral is its exact value, another numeral the double
    [precise_xstrtod] computes, a text that is neither is NaN ([None]).
    Not modelled: an integer numeral beyond 2^53 in a column that also
    holds a fraction (pandas rounds it to a double), integers beyond the
    int64 range ([uint64] columns), columns made only of the words
    True/False (read as booleans), and exponents of more than 9 digits
    (they overflow the C [int] of [precise_xstrtod]). *)

Definition is_digit (c : ascii) : bool := (48 <=? code c) && (code c <=? 57).

(** [isspace_ascii] of the tokenizer. *)
Definition isspace_ascii (c : ascii) : bool :=
  let n := code c in (n =? 32) || ((9 <=? n) && (n <=? 13)).

Fixpoint skip_space (s : string) : string :=
  match s with
  | String c r => if isspace_ascii c then skip_space r else s
  | EmptyString => s
  end.

Fixpoint take_digits (s : string) (acc : Z) (n : nat) : Z * nat * string :=
  match s with
  | String c r => if is_digit c then take_digits r (acc * 10 + (code c - 48)) (S n)
                  else (acc, n, s)
  | EmptyString => (acc, n, s)
  end.

Definition take_sign (s : string) : bool * string :=
  match s with
  | String "-" r => (true, r)
  | String "+" r => (false, r)
  | _ => (false, s)
  end.

Fixpoint lower (s : string) : string :=
  match s with
  | String c r => String (fold_case c) (lower r)
  | EmptyString => EmptyString
  end.

(** [str_to_int64] of the tokenizer: spaces, a sign, at least one digit,
    spaces, and a value in the int64 range. *)
Definition str_to_int64 (s : string) : option Z :=
  let '(neg, s1) := take_sign (skip_space s) in
  let '(v, nd, s2) := take_digits s1 0 0 in
  let z := if neg then - v else v in
  if Nat.eqb nd 0 || negb (String.eqb (skip_space s2) EmptyString) then None
  else if (- 2 ^ 63 <=? z) && (z <=? 2 ^ 63 - 1) then Some z else None.

(** [e[k]] of [precise_xstrtod]: the double nearest 10^k. *)
Definition e10 (k : Z) : Q := rnd (inject_Z (10 ^ k)).

(** [number = number * 10. + digit] in double arithmetic. *)
Definition push_digit (number : Q) (c : ascii) : Q :=
  rnd (rnd (number * inject_Z 10) + inject_Z (code c - 48))%Q.

(** The integer digits: the first 17 go into [number], each further one
    increments the exponent. *)
Fixpoint xs_int (s : string) (number : Q) (nd : nat) (ex : Z) : Q * nat * Z * string :=
  match s with
  | String c r =>
      if is_digit c then
        if Nat.ltb nd 17 then xs_int r (push_digit number c) (S nd) ex
        else xs_int r number nd (ex + 1)
      else (number, nd, ex, s)
  | EmptyString => (number, nd, ex, s)
  end.

(** The decimal digits: taken while fewer than 17 digits are in
    [number]; the others are skipped. *)
Fixpoint xs_frac (s : string) (number : Q) (nd ndec : nat) : Q * nat * nat * string :=
  match s with
  | String c r =>
      if is_digit c then
        if Nat.ltb nd 17 then xs_frac r (push_digit number c) (S nd) (S ndec)
        else xs_frac r number nd ndec
      else (number, nd, ndec, s)
  | EmptyString => (number, nd, ndec, s)
  end.

(** The exponent digits, at most 17 of them. *)
Fixpoint xs_exp (s : string) (n : Z) (nd : nat) : Z * nat * string :=
  match s with
  | String c r =>
      if is_digit c && Nat.ltb nd 17 then xs_exp r (n * 10 + (code c - 48)) (S nd) else (n, nd, s)
  | EmptyString => (n, nd, s)
  end.

(** [precise_xstrtod(s, &end, '.', 'E', '\0', 1, &error, NULL)], with
    [error == 0] and the end of the text required by its callers: [None] on an
    error ([ERANGE], no digit, or text left over). *)
Definition precise_xstrtod (s : string) : option Q :=
  let '(neg, s1) := take_sign (skip_space s) in
  let '(number, nd, ex, s2) := xs_int s1 0 0%nat 0 in
  let '(number, nd, ex, s3) :=
    match s2 with
    | String "." r =>
        let '(number', nd', ndec, r') := xs_frac r number nd 0 in
        (number', nd', ex - Z.of_nat ndec, r')
    | _ => (number, nd, ex, s2)
    end in
  if Nat.eqb nd 0 then None else
  let number := if neg then (- number)%Q else number in
  let '(ex, s4) :=
    match s3 with
    | String c r =>
        if Ascii.eqb c "e" || Ascii.eqb c "E" then
          let '(eneg, r1) := take_sign r in
          let '(n, ne, r2) := xs_exp r1 0 0 in
          if Nat.eqb ne 0 then (ex, s3)  (* the 'e' is given back: text is left over *)
          else ((if eneg then ex - n else ex + n), r2)
        else (ex, s3)
    | EmptyString => (ex, s3)
    end in
  let v :=
    if 308 <? ex then NInf false  (* ERANGE *)
    else if 0 <? ex then round64 (number * e10 ex)%Q
    else if ex <? -308 then
      (if ex <? -616 then NFin 0 else round64 (rnd (number / e10 (-308 - ex)) / e10 308)%Q)
    else round64 (number / e10 (- ex))%Q in
  match v with
  | NFin q => if String.eqb (skip_space s4) EmptyString then Some q else None
  | NInf _ => None  (* ERANGE *)
  end.

(** The infinity words the parser and [to_numeric] accept, in any case:
    inf, infinity, with an optional sign. *)
Definition inf_word (s : string) : option bool :=
  let '(neg, r) := take_sign s in
  if String.eqb (lower r) "inf" || String.eqb (lower r) "infinity" then Some neg else None.

Definition parse_num (s : string) : option num :=
  match str_to_int64 s with
  | Some z => Some (NFin (inject_Z z))
  | None =>
      match precise_xstrtod s with
      | Some q => Some (NFin q)
      | None => option_map NInf (inf_word s)
      end
  end.

Definition to_numeric (c : cell) : option num :=
  match c with Some s => parse_num s | None => None end.

(** [.fillna(0)] *)
Definition fillna0 (x : option num) : num :=
  match x with Some v => v | None => NFin 0 end.

(** [float -> int64] cast: truncation toward zero; an out-of-range
    finite value gives the x86 "integer indefinite" value -2^63. *)
Definition trunc (q : Q) : Z := Z.quot (Qnum q) (Zpos (Qden q)).

Definition to_int64 (z : Z) : Z :=
  if (- 2 ^ 63 <=? z) && (z <? 2 ^ 63) then z else - 2 ^ 63.

(** [.astype(int)] on one value; pandas raises
    [IntCastingNaNError] on a non-finite value. *)
Definition astype_int1 (x : num) : option Z :=
  match x with NFin q => Some (to_int64 (trunc q)) | NInf _ => None end.

Fixpoint astype_int (xs : list num) : option (list Z) :=
  match xs with
  | [] => Some []
  | x :: r => match astype_int1 x, astype_int r with
              | Some z, Some zs => Some (z :: zs)
              | _, _ => None
              end
  end.

(* ------------------------------------------------------------------ *)
(** ** Time: [pd.to_datetime(unit='s', errors='coerce')] and
    [.dt.strftime('%d/%b/%Y:%H:%M:%S')]

    A timestamp is a count of nanoseconds since the epoch, naive (no
    time zone is attached and none is consulted).  An integer cell of an
    [int64] column is scaled by 10^9 exactly.  A cell of a [float64]
    column goes through [cast_from_unit_vectorized]: the double is split
    into its truncation [base] and the rest [frac], [frac] is rounded with
    [np.round(frac, 9)] (that is [rint(frac * 1e9) / 1e9] in doubles), and
    the result is [base * 10^9 + int(frac * 1e9)].  A value outside the
    [datetime64[ns]] range, an infinity or a non-number becomes NaT
    ([None]).  Not modelled: when a column holds a value out of range, or
    text that is not a number, pandas converts the other cells through
    Python's [float] and [round], which can differ from the above in the
    last nanosecond. *)

Definition ns_per_s : Z := 10 ^ 9.

(** The [datetime64[ns]] range: every int64 but NaT, -2^63. *)
Definition ns_ok (ns : Z) : bool := (- (2 ^ 63 - 1) <=? ns) && (ns <=? 2 ^ 63 - 1).

Definition cast_from_unit (v : Q) : option Z :=
  let base := trunc v in
  let frac := rnd (v - inject_Z base)%Q in
  let frac := rnd (inject_Z (rint (rnd (frac * inject_Z ns_per_s)%Q)) / inject_Z ns_per_s)%Q in
  let ns := base * ns_per_s + trunc (rnd (frac * inject_Z ns_per_s)%Q) in
  if ns_ok (base * ns_per_s) && ns_ok ns then Some ns else None.

Definition to_dt (c : cell) : option Z :=
  match c with
  | None => None
  | Some s =>
      match str_to_int64 s with
      | Some z => if ns_ok (z * ns_per_s) then Some (z * ns_per_s) else None
      | None =>
          match precise_xstrtod s with
          | Some v => cast_from_unit v
          | None => None
          end
      end
  end.

(** Proleptic Gregorian date of a day count since 1970-01-01. *)
Definition civil_from_days (days : Z) : Z * Z * Z :=
  let z := days + 719468 in
  let era := z / 146097 in
  let doe := z - era * 146097 in
  let yoe := (doe - doe / 1460 + doe / 36524 - doe / 146096) / 365 in
  let y := yoe + era * 400 in
  let doy := doe - (365 * yoe + yoe / 4 - yoe / 100) in
  let mp := (5 * doy + 2) / 153 in
  let d := doy - (153 * mp + 2) / 5 + 1 in
  let m := if mp <? 10 then mp + 3 else mp - 9 in
  ((if m <=? 2 then y + 1 else y), m, d).

Definition month_abbr (m : Z) : string :=
  nth (Z.to_nat (m - 1))
    ["Jan"; "Feb"; "Mar"; "Apr"; "May"; "Jun";
     "Jul"; "Aug"; "Sep"; "Oct"; "Nov"; "Dec"] "".

Definition digit (n : Z) : ascii := Ascii.ascii_of_nat (Z.to_nat (48 + n)).

Fixpoint dec_aux (fuel : nat) (n : Z) (acc : string) : string :=
  match fuel with
  | O => acc
  | S f => if n <? 10 then String (digit n) acc
           else dec_aux f (n / 10) (String (digit (n mod 10)) acc)
  end.

(** Decimal rendering of a non-negative integer. *)
Definition dec (n : Z) : string := dec_aux 25 n EmptyString.

Definition pad2 (n : Z) : string := if n <? 10 then String "0" (dec n) else dec n.

Definition strftime (ns : Z) : string :=
  let secs := ns / ns_per_s in
  let '(y, m, d) := civil_from_days (secs / 86400) in
  let sod := secs mod 86400 in
  pad2 d ++ "/" ++ month_abbr m ++ "/" ++ dec y ++ ":" ++
  pad2 (sod / 3600) ++ ":" ++ pad2 (sod mod 3600 / 60) ++ ":" ++ pad2 (sod mod 60).

(* ------------------------------------------------------------------ *)
(** ** Records of the Log Table and the per-row derivations *)

(** [.astype(str)] of a text cell: NaN prints as ["nan"]. *)
Definition astype_str (c : cell) : string :=
  match c with Some s => s | None => "nan" end.

Record record := mk_record {
  host : cell; time : option string; request : string;
  status : Z; bytes : num; dt : option Z }.

Definition request_of (r : raw_row) : string :=
  astype_str (r_method r) ++ " " ++ astype_str (r_url r).
Definition dt_of (r : raw_row) : option Z := to_dt (r_time_epoch r).
Definition time_of (r : raw_row) : option string := option_map strftime (dt_of r).
Definition status_num (r : raw_row) : num := fillna0 (to_numeric (r_status r)).
Definition bytes_of (r : raw_row) : num := fillna0 (to_numeric (r_bytes r)).

(* ------------------------------------------------------------------ *)
(** ** The global [df] and [upload]

    [df] starts as [None].  [upload] assigns the freshly read frame to
    the global and then adds and rewrites its columns in place, so each
    statement of the handler publishes a new value of [df]: a frame
    under transformation ([Working]) until the final projection
    [df = df[['host','time','request','status','bytes','dt']]] leaves a
    Log Table ([Table]). *)

Record work := mk_work {
  w_rows : list raw_row;
  w_request : option (list string);
  w_dt : option (list (option Z));
  w_time : option (list (option string));
  w_status : option (list Z);
  w_bytes : option (list num) }.

Inductive gstate := NoDf | Working (w : work) | Table (t : list record).

Inductive outcome (A : Type) := Ok (a : A) | Raise (e : string).
Arguments Ok {A} a.
Arguments Raise {A} e.

(** State of the handler: the global [df] and the trace of every value
    assigned to it so far. *)
Definition st := (gstate * list gstate)%type.
Definition M (A : Type) := st -> outcome A * st.

Definition ret {A} (a : A) : M A := fun s => (Ok a, s).
Definition bind {A B} (m : M A) (k : A -> M B) : M B :=
  fun s => match m s with
           | (Ok a, s') => k a s'
           | (Raise e, s') => (Raise e, s')
           end.
Notation "x <- m ;; k" := (bind m (fun x => k)) (at level 61, m at next level, right associativity).

Definition set_df (g : gstate) : M unit := fun '(_, tr) => (Ok tt, (g, app tr [g])).
Definition raise {A} (e : string) : M A := fun s => (Raise e, s).
Definition lift {A} (x : option A) (e : string) : M A :=
  match x with Some a => ret a | None => raise e end.
(** [try: m except Exception as e: h e] *)
Definition try_ {A} (m : M A) (h : string -> M A) : M A :=
  fun s => match m s with
           | (Ok a, s') => (Ok a, s')
           | (Raise e, s') => h e s'
           end.

Fixpoint zip_records (rows : list raw_row) (reqs : list string) (dts : list (option Z))
  (times : list (option string)) (sts : list Z) (bys : list num) : list record :=
  match rows, reqs, dts, times, sts, bys with
  | r :: rows', q :: reqs', d :: dts', t :: times', s :: sts', b :: bys' =>
      mk_record (r_host r) t q s b d :: zip_records rows' reqs' dts' times' sts' bys'
  | _, _, _, _, _, _ => []
  end.

(** [df[['host', 'time', 'request', 'status', 'bytes', 'dt']]] *)
Definition select (w : work) : option (list record) :=
  match w_request w, w_dt w, w_time w, w_status w, w_bytes w with
  | Some q, Some d, Some t, Some s, Some b => Some (zip_records (w_rows w) q d t s b)
  | _, _, _, _, _ => None
  end.

Definition int_cast_error : string :=
  "Cannot convert non-finite values (NA or inf) to integer".

(** The statements of the [try] block, each one a change of the frame
    held by [df]. *)
Definition stage0 (rows : list raw_row) : work := mk_work rows None None None None None.

(** [df['request'] = df['method'].astype(str) + " " + df['url'].astype(str)] *)
Definition add_request (w : work) : work :=
  mk_work (w_rows w) (Some (map request_of (w_rows w))) (w_dt w) (w_time w)
    (w_status w) (w_bytes w).

(** [df['dt'] = pd.to_datetime(df['time_epoch'], unit='s', errors='coerce')] *)
Definition add_dt (w : work) : work :=
  mk_work (w_rows w) (w_request w) (Some (map dt_of (w_rows w))) (w_time w)
    (w_status w) (w_bytes w).

(** [df['time'] = df['dt'].dt.strftime('%d/%b/%Y:%H:%M:%S')] *)
Definition add_time (w : work) : work :=
  mk_work (w_rows w) (w_request w) (w_dt w) (Some (map time_of (w_rows w)))
    (w_status w) (w_bytes w).

(** [df['status'] = pd.to_numeric(..., errors='coerce').fillna(0).astype(int)],
    once the cast has succeeded. *)
Definition set_status (sts : list Z) (w : work) : work :=
  mk_work (w_rows w) (w_request w) (w_dt w) (w_time w) (Some sts) (w_bytes w).

(** [df['bytes'] = pd.to_numeric(df['bytes'], errors='coerce').fillna(0)] *)
Definition add_bytes (w : work) : work :=
  mk_work (w_rows w) (w_request w) (w_dt w) (w_time w) (w_status w)
    (Some (map bytes_of (w_rows w))).

(** The body of the [try] block of [upload]. *)
Definition upload_body (lines : list string) : M nat :=
  let w0 := stage0 (read_csv lines) in
  _ <- set_df (Working w0) ;;
  let w1 := add_request w0 in
  _ <- set_df (Working w1) ;;
  let w2 := add_dt w1 in
  _ <- set_df (Working w2) ;;
  let w3 := add_time w2 in
  _ <- set_df (Working w3) ;;
  sts <- lift (astype_int (map status_num (w_rows w3))) int_cast_error ;;
  let w4 := set_status sts w3 in
  _ <- set_df (Working w4) ;;
  let w5 := add_bytes w4 in
  _ <- set_df (Working w5) ;;
  t <- lift (select w5) "KeyError" ;;
  _ <- set_df (Table t) ;;
  ret (length t).

Inductive response := RLoaded (n : nat) | RNotFound | RError (e : string).

(** [upload()]: the file is [None] when [os.path.isfile(path)] fails. *)
Definition upload (file : option (list string)) : M response :=
  match file with
  | None => ret RNotFound
  | Some lines =>
      try_ (n <- upload_body lines ;; ret (RLoaded n)) (fun e => ret (RError e))
  end.

(** Run [upload] from a global value [g], with an empty trace. *)
Definition run_upload (file : option (list string)) (g : gstate)
  : response * gstate * list gstate :=
  match upload file (g, []) with
  | (Ok r, (g', tr)) => (r, g', tr)
  | (Raise e, (g', tr)) => (RError e, g', tr)
  end.

(* ------------------------------------------------------------------ *)
(** ** [stats()]

    [value_counts()] drops NaN keys, counts the others in order of first
    occurrence and sorts the counts in decreasing order.  pandas sorts
    with [sort_values(kind='quicksort')], whose order among equal counts
    the source does not fix; this model sorts stably. *)

Fixpoint add_key (k : string) (acc : list (string * nat)) : list (string * nat) :=
  match acc with
  | [] => [(k, 1%nat)]
  | (k', n) :: r => if String.eqb k k' then (k', S n) :: r else (k', n) :: add_key k r
  end.

Fixpoint insert_desc (x : string * nat) (l : list (string * nat)) : list (string * nat) :=
  match l with
  | [] => [x]
  | y :: l' => if Nat.ltb (snd y) (snd x) then x :: l else y :: insert_desc x l'
  end.

Definition somes {A} (xs : list (option A)) : list A :=
  flat_map (fun o => match o with Some a => [a] | None => [] end) xs.

Definition value_counts (ks : list (option string)) : list (string * nat) :=
  fold_left (fun acc x => insert_desc x acc)
    (fold_left (fun acc k => add_key k acc) (somes ks) []) [].

(** Python's [str.split()] with no argument: runs of whitespace separate,
    no empty tokens. *)
Fixpoint py_split_aux (s : string) (cur : string) : list string :=
  match s with
  | EmptyString => if String.eqb cur EmptyString then [] else [cur]
  | String c r =>
      if py_space c then
        (if String.eqb cur EmptyString then [] else [cur]) ++ py_split_aux r EmptyString
      else py_split_aux r (cur ++ String c EmptyString)
  end%list.

Definition py_split (s : string) : list string := py_split_aux s EmptyString.

Definition top_5_ips (t : list record) : list (string * nat) :=
  firstn 5 (value_counts (map host t)).

(** [df['request'].str.split().str[1].value_counts().head(5)]: [.str[1]]
    is NaN for a request with fewer than two tokens; nothing here raises,
    so the [except] branch is not taken. *)
Definition top_5_endpoints (t : list record) : list (string * nat) :=
  firstn 5 (value_counts (map (fun r => nth_error (py_split (request r)) 1) t)).

(** [df[(df['status'] >= 400) & (df['status'] < 600)].shape[0]] *)
Definition error_count (t : list record) : nat :=
  length (filter (fun r => (400 <=? status r) && (status r <? 600)) t).

(** Python's [round(x, 2)] on a finite double: the exact binary value
    times 100, rounded to an integer with ties to even, over 100, read
    back as the nearest double. *)
Definition py_round2 (x : Q) : num := round64 (inject_Z (rint (x * 100)) / 100).

(** [round(100.0 * error_count / total, 2)] in doubles: each integer is
    converted to a double ([None] for Python's [OverflowError] beyond the
    double range), then [100.0 * e] and [/ total] are rounded in turn. *)
Definition error_rate_pct (t : list record) : option num :=
  let n := length t in
  if Nat.eqb n 0 then Some (NFin 0) else
  match round64 (inject_Z (Z.of_nat (error_count t))), round64 (inject_Z (Z.of_nat n)) with
  | NFin e, NFin d =>
      match round64 (100 * e) with
      | NFin p =>
          match round64 (p / d) with
          | NFin x => Some (py_round2 x)
          | NInf b => Some (NInf b)
          end
      | NInf b => Some (NInf b)  (* inf / d is inf, and round(inf, 2) is inf *)
      end
  | _, _ => None
  end.

Definition ns_per_hour : Z := 3600 * ns_per_s.
Definition bucket (ns : Z) : Z := ns / ns_per_hour.

Definition count_in (b : Z) (ts : list Z) : nat :=
  length (filter (fun x => Z.eqb (bucket x) b) ts).

Definition day_ns : Z := 86400 * ns_per_s.

(** [Timestamp.normalize()]: midnight of the day of an instant. *)
Definition normalize (ns : Z) : Z := ns / day_ns * day_ns.

(** [df.set_index('dt').resample('h').size()] inside the handler's
    [try]: NaT rows are left out; one bucket per hour from the earliest
    to the latest timestamp, labelled by its start.  Without any
    timestamp the result is empty.  The end of the last bin,
    [(hi + 1) * ns_per_hour], is built as a [Timestamp]; beyond the int64
    range that raises [OutOfBoundsDatetime], which the handler turns into
    [[]].  pandas anchors the bins at the midnight of the first
    timestamp; when that midnight is below the int64 range its int64
    arithmetic wraps around, which is not modelled ([None]). *)
(** The hourly bins from the first to the last timestamp of [x :: r],
    labelled by their start, with their counts. *)
Definition hourly_series (x : Z) (r : list Z) : list (Z * nat) :=
  let lo := fold_left Z.min (map bucket r) (bucket x) in
  let hi := fold_left Z.max (map bucket r) (bucket x) in
  map (fun k => ((lo + Z.of_nat k) * ns_per_hour, count_in (lo + Z.of_nat k) (x :: r)))
    (seq 0 (Z.to_nat (hi - lo + 1))).

Definition requests_over_time (t : list record) : option (list (Z * nat)) :=
  match somes (map dt t) with
  | [] => Some []
  | x :: r =>
      if normalize (fold_left Z.min r x) <? - 2 ^ 63 then None
      else if 2 ^ 63 - 1 <? (fold_left Z.max (map bucket r) (bucket x) + 1) * ns_per_hour
      then Some []
      else Some (hourly_series x r)
  end.

(** The instants where [requests_over_time] stops being the series of
    buckets: from [ts_hi] on, the hour of the instant ends beyond
    [2^63 - 1]; below [ts_lo], its midnight is below [-2^63]. *)
Definition ts_lo : Z := - 9223286400 * ns_per_s.
Definition ts_hi : Z := 9223369200 * ns_per_s.

(** The fields of the JSON answer; [error_rate_pct] is [None] when
    Python raises, [requests_over_time] is [None] outside the model. *)
Record stats_out := mk_stats {
  s_total : nat; s_unique_ips : nat; s_error_rate_pct : option num;
  s_top_5_ips : list (string * nat); s_top_5_endpoints : list (string * nat);
  s_requests_over_time : option (list (Z * nat)) }.

Definition stats (g : gstate) : option stats_out :=
  match g with
  | NoDf | Table [] => Some (mk_stats 0 0 (Some (NFin 0)) [] [] (Some []))
  | Table t =>
      Some (mk_stats (length t) (length (value_counts (map host t))) (error_rate_pct t)
              (top_5_ips t) (top_5_endpoints t) (requests_over_time t))
  | Working _ => None  (* a frame under transformation: not modelled *)
  end.


(* ------------------------------------------------------------------ *)
(** ** [search()]

    [q = request.args.get('q', '').strip()], then
    [df['request'].astype(str).str.contains(q, case=False, na=False)]
    and [.head(50)].  [str.contains] compiles [q] as a regular expression
    ([regex=True] is its default) with [re.IGNORECASE]; for a pattern
    without metacharacters that is a case-insensitive substring test,
    which is what is modelled here.  A pattern with a metacharacter is
    outside this model ([None]); so is a query with characters beyond
    latin1. *)

Fixpoint lstrip (s : string) : string :=
  match s with
  | String c r => if py_space c then lstrip r else s
  | EmptyString => EmptyString
  end.

Definition rstrip (s : string) : string :=
  string_of_list_ascii (rev (list_ascii_of_string (lstrip
    (string_of_list_ascii (rev (list_ascii_of_string s)))))).

Definition py_strip (s : string) : string := rstrip (lstrip s).

Definition regex_meta (c : ascii) : bool :=
  existsb (Ascii.eqb c) (list_ascii_of_string ".^$*+?{}[]|()\").

Fixpoint prefixb (p t : string) : bool :=
  match p, t with
  | EmptyString, _ => true
  | String a p', String b t' => Ascii.eqb a b && prefixb p' t'
  | _, _ => false
  end.

Fixpoint containsb (t p : string) : bool :=
  prefixb p t || match t with EmptyString => false | String _ t' => containsb t' p end.

Definition contains_ci (text pat : string) : bool := containsb (lower text) (lower pat).

Definition search (g : gstate) (q_arg : string) : option (nat * list record) :=
  let q := py_strip q_arg in
  match g with
  | NoDf | Table [] => Some (0%nat, [])
  | Working _ => None  (* a frame under transformation: not modelled *)
  | Table t =>
      if String.eqb q EmptyString then Some (0%nat, [])
      else if existsb regex_meta (list_ascii_of_string q) then None
      else let m := firstn 50 (filter (fun r => contains_ci (request r) q) t) in
           Some (length m, m)
  end.

(* ------------------------------------------------------------------ *)
(** ** [analyze()]

    The handler selects the suspicious rows, samples at most 15 of them,
    renders each as a log line, and sends the lines to the Gemini models
    in a fixed order until one answers.  The answer text is stripped of
    a Markdown fence and parsed as JSON.  Any exception inside the [try]
    gives the degraded result with ['Manual Review Required'].

    Four parts of it are outside this program and are parameters of the
    model below:
    - [DataFrame.sample(n, random_state=42)], which uses numpy's generator;
    - [os.getenv('GEMINI_API_KEY')];
    - the Gemini client;
    - [json.loads].
    [genai.configure] is taken not to raise, and a response object is
    truthy, so [if not response] only fires when no model answered. *)

(** The double-quote character, as a string. *)
Definition dq : string := String (Ascii.ascii_of_nat 34) EmptyString.

Definition nl : string := String (Ascii.ascii_of_nat 10) EmptyString.

(** [str()] of a Python integer. *)
Definition py_int_str (z : Z) : string := if z <? 0 then "-" ++ dec (- z) else dec z.

(** [_row_to_log_line]: [row.get] of a present column; a NaN host or
    time prints as ["nan"]. *)
Definition row_to_log_line (r : record) : string :=
  astype_str (host r) ++ " - " ++ astype_str (time r) ++ " " ++ dq ++ request r ++ dq
  ++ " " ++ py_int_str (status r).

(** The pattern ['admin|login|UNION|SELECT|etc/passwd'] is an
    alternation of literals without other metacharacters: with
    [case=False] it matches a request that contains one of them, in any
    case.  [request] is never NaN, so [na=False] plays no part. *)
Definition suspicious_words : list string :=
  ["admin"; "login"; "UNION"; "SELECT"; "etc/passwd"].

Definition suspicious_request (req : string) : bool :=
  existsb (contains_ci req) suspicious_words.

Definition select_suspicious (t : list record) : list record :=
  match filter (fun r => (400 <=? status r) || suspicious_request (request r)) t with
  | [] => filter (fun r => 400 <=? status r) t
  | s => s
  end.

Definition possible_models : list string :=
  ["gemini-1.5-flash"; "gemini-1.5-flash-001"; "gemini-1.5-pro";
   "gemini-pro"; "gemini-1.0-pro"].

(** The model loop.  [call name] is either a response ([inl]) or the
    text of the exception raised ([inr]).  The result is the response if
    one was obtained, the final [last_error], and the names tried, in
    order. *)
Fixpoint try_models {R : Type} (call : string -> R + string) (ms : list string)
    (last_error : string) : option R * string * list string :=
  match ms with
  | [] => (None, last_error, [])
  | m :: ms' =>
      match call m with
      | inl resp => (Some resp, last_error, [m])
      | inr e => let '(r, le, tried) := try_models call ms' e in (r, le, m :: tried)
      end
  end.

Fixpoint sdrop (n : nat) (s : string) : string :=
  match n, s with
  | O, _ => s
  | S n', String _ r => sdrop n' r
  | S _, EmptyString => EmptyString
  end.

Fixpoint replace_aux (fuel : nat) (old new s : string) : string :=
  match fuel with
  | O => s
  | S f =>
      match s with
      | EmptyString => EmptyString
      | String c r =>
          if prefixb old s then new ++ replace_aux f old new (sdrop (String.length old) s)
          else String c (replace_aux f old new r)
      end
  end.

(** [s.replace(old, new)] for a non-empty [old]: the leftmost
    occurrences, not overlapping, scanning left to right.  Each step
    consumes at least one character, so [length s] steps suffice. *)
Definition py_replace (s old new : string) : string := replace_aux (String.length s) old new s.

Definition fence : string := "```".

(** [text = response.text.strip()] and the fence removal. *)
Definition clean_text (raw : string) : string :=
  let text := py_strip raw in
  if prefixb fence text
  then py_strip (py_replace (py_replace text "```json" EmptyString) fence EmptyString)
  else text.

Definition ANALYZE_SYSTEM_PROMPT : string :=
  "You are a Cyber Security Analyst. Analyze these log lines. "
  ++ "Return a VALID JSON object with keys: 'patterns_detected' (list of strings like 'SQL Injection'), "
  ++ "'risk_level', and 'summary'. Do NOT use markdown code blocks. Just return the raw JSON string.".

Inductive analysis :=
  | ANoLogs                   (* 400, {'error': 'No logs loaded.'} *)
  | ANoKey                    (* 500, {'error': 'GEMINI_API_KEY not set in .env'} *)
  | AResult (json : string)   (* jsonify(json.loads(text)) *)
  | ADegraded (summary : string).  (* the ['Manual Review Required'] result *)

Definition degraded_summary (e : string) : string :=
  "AI analysis failed. Please check API Key. Details: " ++ e.

Section Analyze.

(** [sample n rows]: [rows.sample(n=n, random_state=42)]. *)
Variable sample : nat -> list record -> list record.
(** [os.getenv('GEMINI_API_KEY')]. *)
Variable api_key : option string.
(** [genai.GenerativeModel(name).generate_content(prompt)]: a response
    whose [.text] is a text ([inl (inl _)]) or raises ([inl (inr _)]),
    or the exception of the call ([inr _]); each with its message. *)
Variable generate : string -> string -> (string + string) + string.
(** [json.loads]: the parsed value, or the message of its exception. *)
Variable json_loads : string -> string + string.

Definition analyze (g : gstate) : option analysis :=
  match g with
  | NoDf | Table [] => Some ANoLogs
  | Working _ => None  (* a frame under transformation: not modelled *)
  | Table t =>
      let suspicious := select_suspicious t in
      let smp := sample (Nat.min 15 (length suspicious)) suspicious in
      let log_block := String.concat nl (map row_to_log_line smp) in
      match api_key with
      | None | Some EmptyString => Some ANoKey
      | Some _ =>
          let full_prompt :=
            ANALYZE_SYSTEM_PROMPT ++ nl ++ nl ++ "Logs to analyze:" ++ nl ++ log_block in
          match try_models (fun m => generate m full_prompt) possible_models EmptyString with
          | (None, last_error, _) =>
              Some (ADegraded (degraded_summary ("All models failed. Last error: " ++ last_error)))
          | (Some (inr e), _, _) => Some (ADegraded (degraded_summary e))
          | (Some (inl raw), _, _) =>
              match json_loads (clean_text raw) with
              | inl v => Some (AResult v)
              | inr e => Some (ADegraded (degraded_summary e))
              end
          end
      end
  end.

End Analyze.

(* ------------------------------------------------------------------ *)
(** ** Reference calendar

    The proleptic Gregorian calendar written out directly: the leap-year
    rule, the month lengths and the day count since 1970-01-01.  The
    conversion [civil_from_days] used by [strftime] is checked against
    it over the whole [datetime64[ns]] range. *)

Definition is_leap (y : Z) : bool :=
  ((y mod 4 =? 0) && negb (y mod 100 =? 0)) || (y mod 400 =? 0).

Definition month_length (y m : Z) : Z :=
  if m =? 2 then (if is_leap y then 29 else 28)
  else if (m =? 4) || (m =? 6) || (m =? 9) || (m =? 11) then 30 else 31.

(** Leap years in [1..y] shifted by a constant: differences count the
    leap years of an interval. *)
Definition leaps_upto (y : Z) : Z := y / 4 - y / 100 + y / 400.

Definition days_before_month (y m : Z) : Z :=
  fold_left (fun acc k => acc + month_length y (Z.of_nat k)) (seq 1 (Z.to_nat (m - 1))) 0.

Definition gregorian_days (y m d : Z) : Z :=
  365 * (y - 1970) + (leaps_upto (y - 1) - leaps_upto 1969) + days_before_month y m + (d - 1).

Definition valid_date (y m d : Z) : bool :=
  (1 <=? m) && (m <=? 12) && (1 <=? d) && (d <=? month_length y m).

(** The parts of [civil_from_days]: the day of the 400-year era on which
    year [k] of the era (counted from March) starts and ends, and the
    year of the era of a day of the era. *)
Definition year_start (k : Z) : Z := 365 * k + k / 4 - k / 100.
Definition year_end (k : Z) : Z := if k =? 399 then 146096 else year_start (k + 1) - 1.
Definition yoe_of (doe : Z) : Z := (doe - doe / 1460 + doe / 36524 - doe / 146096) / 365.

(** Year [k] of an era: [yoe_of] maps its first and last day to [k],
    it has 365 days plus one when the following January-based year is a
    leap year, and its first day (March 1) is [year_start k] days after
    0000-03-01, which is 719468 days before 1970-01-01. *)
Definition era_year_ok (k : Z) : bool :=
  (yoe_of (year_start k) =? k) && (yoe_of (year_end k) =? k)
  && (year_end k - year_start k =? 364 + (if is_leap (k + 1) then 1 else 0))
  && (gregorian_days k 3 1 =? year_start k - 719468).

(** Day [doy] of a March-based year: the month and day [civil_from_days]
    gives it, written with the month lengths of a common year and the
    offset of its month from March 1. *)
Definition month_day_ok (doy : Z) : bool :=
  let mp := (5 * doy + 2) / 153 in
  let d := doy - (153 * mp + 2) / 5 + 1 in
  let m := if mp <? 10 then mp + 3 else mp - 9 in
  (1 <=? m) && (m <=? 12) && (1 <=? d) && (negb (doy =? 365) || (m =? 2)) &&
  (if 3 <=? m
   then (d <=? month_length 1 m) && (days_before_month 1 m - 59 + d - 1 =? doy)
   else (d <=? month_length 1 m + (if doy =? 365 then 1 else 0))
        && (306 + days_before_month 1 m + d - 1 =? doy)).

(** [f] holds on [start], ..., [start + n - 1]. *)
Fixpoint all_in (f : Z -> bool) (start : Z) (n : nat) : bool :=
  match n with
  | O => true
  | S k => if f start then all_in f (start + 1) k else false
  end.

(* ------------------------------------------------------------------ *)
(** ** Sample inputs *)

(** A line of the log file from its fields. *)
Definition tsv (fs : list string) : string := String.concat (String tab EmptyString) fs.

Definition line_full : string :=
  tsv ["10.0.0.1"; "-"; "804571304"; "GET"; "/shuttle/missions/sts-1"; "200"; "1024"].
(** Only four fields. *)
Definition line_short : string := tsv ["10.0.0.2"; "-"; "804571305"; "GET"].
(** An empty url field. *)
Definition line_no_url : string := tsv ["10.0.0.3"; "-"; "804571306"; "GET"; ""; "200"; "10"].
(** An empty host field. *)
Definition line_no_host : string := tsv [""; "-"; "804571307"; "GET"; "/a"; "200"; "10"].
(** A status field [inf]. *)
Definition line_inf_status : string := tsv ["10.0.0.4"; "-"; "804571308"; "GET"; "/b"; "inf"; "10"].
(** A url of one blank: the request has a single token. *)
Definition line_blank_url : string := tsv ["10.0.0.5"; "-"; "804571309"; "GET"; " "; "200"; "10"].



(* ================================================================== *)
(** * Properties *)

(** ** How [upload] runs *)

Lemma run_upload_none (g : gstate) : run_upload None g = (RNotFound, g, []).
Proof. reflexivity. Qed.

Lemma run_upload_some (lines : list string) (g : gstate) :
  let rows := read_csv lines in
  let w0 := stage0 rows in
  let w3 := add_time (add_dt (add_request w0)) in
  run_upload (Some lines) g =
    match astype_int (map status_num rows) with
    | Some sts =>
        let w5 := add_bytes (set_status sts w3) in
        let t := zip_records rows (map request_of rows) (map dt_of rows)
                   (map time_of rows) sts (map bytes_of rows) in
        (RLoaded (length t), Table t,
         [Working w0; Working (add_request w0); Working (add_dt (add_request w0));
          Working w3; Working (set_status sts w3); Working w5; Table t])
    | None =>
        (RError int_cast_error, Working w3,
         [Working w0; Working (add_request w0); Working (add_dt (add_request w0));
          Working w3])
    end.
Proof.
  cbv zeta. unfold run_upload, upload, try_, bind, upload_body, lift.
  cbn [set_df app ret w_rows add_time add_dt add_request stage0].
  destruct (astype_int (map status_num (read_csv lines))); reflexivity.
Qed.

Lemma astype_int_Forall2 (xs : list num) (zs : list Z) :
  astype_int xs = Some zs -> Forall2 (fun x z => astype_int1 x = Some z) xs zs.
Proof.
  revert zs; induction xs as [|x xs IH]; intros zs H; simpl in H.
  - injection H as <-. constructor.
  - destruct (astype_int1 x) eqn:E1; [|discriminate].
    destruct (astype_int xs) eqn:E2; [|discriminate].
    injection H as <-. constructor; auto.
Qed.

(** What each record of the Log Table holds, from the raw row it comes from. *)
Definition derived_from (r : raw_row) (rec : record) : Prop :=
  host rec = r_host r /\ request rec = request_of r /\ dt rec = dt_of r /\
  time rec = time_of r /\ bytes rec = bytes_of r /\
  astype_int1 (status_num r) = Some (status rec).

Lemma zip_records_derived (rows : list raw_row) (sts : list Z) :
  Forall2 (fun x z => astype_int1 x = Some z) (map status_num rows) sts ->
  Forall2 derived_from rows
    (zip_records rows (map request_of rows) (map dt_of rows) (map time_of rows)
       sts (map bytes_of rows)).
Proof.
  revert sts; induction rows as [|r rows IH]; intros sts H; simpl.
  - constructor.
  - inversion H; subst. constructor.
    + repeat split; assumption.
    + apply IH; assumption.
Qed.

Lemma upload_loaded (lines : list string) (g g' : gstate) (n : nat) (tr : list gstate) :
  run_upload (Some lines) g = (RLoaded n, g', tr) ->
  exists t, g' = Table t /\ n = length t /\ Forall2 derived_from (read_csv lines) t.
Proof.
  rewrite run_upload_some. cbv zeta.
  destruct (astype_int (map status_num (read_csv lines))) as [sts|] eqn:E;
    intro H; inversion H; subst.
  eexists; split; [reflexivity | split; [reflexivity |]].
  apply zip_records_derived, astype_int_Forall2, E.
Qed.

(** ** Record parsing (claim C1) *)

(** C1: the tokenizer pads a line with fewer than 7 fields instead of
    dropping it: of a 7-field line and a 4-field line, both are loaded,
    while only one line has 7 fields. *)
Lemma C1_short_line_kept :
  length (read_csv [line_full; line_short]) = 2%nat /\
  length (filter (fun l => Nat.eqb (nfields l) 7) [line_full; line_short]) = 1%nat /\
  fst (fst (run_upload (Some [line_full; line_short]) NoDf)) = RLoaded 2.
Proof. vm_compute. repeat split. Qed.

(** ** The global table across an upload (claim C4) *)

(** C4: after a successful load, an upload whose status field is [inf]
    fails in the integer cast, and the global then holds neither the
    previous table nor a complete new one, but the new frame with
    [request], [dt] and [time] added. *)
Lemma C4_failed_upload_leaves_partial_frame :
  match run_upload (Some [line_full]) NoDf with
  | (_, g1, _) =>
      match run_upload (Some [line_inf_status]) g1 with
      | (r, g2, _) =>
          r = RError int_cast_error /\ g2 <> g1 /\ (forall t, g2 <> Table t) /\
          g2 = Working (add_time (add_dt (add_request (stage0 (read_csv [line_inf_status])))))
      end
  end.
Proof.
  vm_compute. split; [reflexivity|]. split; [discriminate|].
  split; [intros t H; discriminate H | reflexivity].
Qed.

(** ** The derived request (claim C8) *)

(** C8: an empty url field is read as NaN, whose string coercion is
    ["nan"], so the request is ["GET nan"], not ["GET "]. *)
Lemma C8_empty_url_prints_nan :
  match run_upload (Some [line_no_url]) NoDf with
  | (RLoaded 1, Table [r], _) => request r = "GET nan" /\ request r <> "GET" ++ " " ++ ""
  | _ => False
  end.
Proof. vm_compute. split; [reflexivity | discriminate]. Qed.

(** ** Field defaults (claim C9) *)

(** C9: an empty host field is read as NaN and kept as a missing host. *)
Lemma C9_empty_host_is_null :
  match run_upload (Some [line_no_host]) NoDf with
  | (RLoaded 1, Table [r], _) => host r = None
  | _ => False
  end.
Proof. vm_compute. reflexivity. Qed.

(** ** Search (claim C2) *)

Lemma prefixb_spec (p t : string) : prefixb p t = true <-> exists suf, t = p ++ suf.
Proof.
  revert t; induction p as [|a p IH]; intro t; simpl.
  - split; [eauto | reflexivity].
  - destruct t as [|b t]; simpl.
    + split; [discriminate | intros [suf H]; discriminate H].
    + rewrite andb_true_iff, Ascii.eqb_eq, IH. split.
      * intros [-> [suf ->]]. eauto.
      * intros [suf H]. injection H as -> ->. eauto.
Qed.

Lemma containsb_spec (t p : string) :
  containsb t p = true <-> exists pre suf, t = pre ++ p ++ suf.
Proof.
  induction t as [|c t IH]; simpl; rewrite orb_true_iff, prefixb_spec.
  - split.
    + intros [[suf H]|H]; [exists EmptyString, suf; exact H | discriminate].
    + intros [pre [suf H]]. left. destruct pre; [exists suf; exact H | discriminate].
  - rewrite IH. split.
    + intros [[suf H]|[pre [suf H]]].
      * exists EmptyString, suf. exact H.
      * exists (String c pre), suf. rewrite H. reflexivity.
    + intros [pre [suf H]]. destruct pre as [|c' pre].
      * left. exists suf. exact H.
      * right. injection H as _ H. eauto.
Qed.

Lemma in_firstn {A} (n : nat) (l : list A) (x : A) : In x (firstn n l) -> In x l.
Proof.
  intro H. rewrite <- (firstn_skipn n l). apply in_or_app. left. exact H.
Qed.

(** C2 (as stated) fails: the query is stripped before matching, so a
    record whose request does not contain ["sts-1 "] is returned for
    that query. *)
Lemma C2_query_is_stripped :
  match run_upload (Some [line_full]) NoDf with
  | (_, g, _) =>
      exists r, search g "sts-1 " = Some (1%nat, [r]) /\
                contains_ci (request r) "sts-1 " = false
  end.
Proof. vm_compute. eexists. split; reflexivity. Qed.

(** C2 (amended): the query is first stripped of surrounding whitespace.
    On an empty table or with an empty stripped query, search returns
    zero results.  Otherwise, for a stripped query without regular
    expression metacharacters, it returns the first 50 records, in table
    order, whose request contains the stripped query as a
    case-insensitive substring, with their count; when at most 50
    records match, it returns all of them. *)
Theorem search_stripped_substring (t : list record) (q : string) :
  let q' := py_strip q in
  ((t = [] \/ q' = EmptyString) -> search (Table t) q = Some (0%nat, [])) /\
  (q' <> EmptyString -> existsb regex_meta (list_ascii_of_string q') = false ->
   let res := firstn 50 (filter (fun r => contains_ci (request r) q') t) in
   search (Table t) q = Some (length res, res) /\
   (length res <= 50)%nat /\
   (forall r, In r res ->
      In r t /\ exists pre suf, lower (request r) = pre ++ lower q' ++ suf) /\
   ((length (filter (fun r => contains_ci (request r) q') t) <= 50)%nat ->
    forall r, In r t -> (exists pre suf, lower (request r) = pre ++ lower q' ++ suf) ->
    In r res)).
Proof.
  cbv zeta. split.
  - intros [->|Hq]; [reflexivity|].
    destruct t as [|r t]; [reflexivity|].
    unfold search. rewrite Hq. reflexivity.
  - intros Hq Hm.
    set (p := fun r => contains_ci (request r) (py_strip q)).
    split; [|split; [|split]].
    + destruct t as [|r t]; [reflexivity|].
      unfold search. fold p.
      destruct (String.eqb (py_strip q) EmptyString) eqn:E;
        [apply String.eqb_eq in E; contradiction|].
      rewrite Hm. reflexivity.
    + apply firstn_le_length.
    + intros r Hr. apply in_firstn in Hr.
      apply filter_In in Hr. destruct Hr as [Hin Hp].
      split; [exact Hin|]. apply containsb_spec, Hp.
    + intros Hle r Hin Hc. rewrite firstn_all2 by exact Hle.
      apply filter_In. split; [exact Hin|]. apply containsb_spec, Hc.
Qed.

Lemma search_stripped_substring_witness :
  let t := [mk_record (Some "h") None "GET /shuttle" 200 (NFin 0) None] in
  let res := firstn 50 (filter (fun r => contains_ci (request r) (py_strip " SHUTTLE ")) t) in
  search (Table t) " SHUTTLE " = Some (length res, res).
Proof.
  exact (proj1 (proj2 (search_stripped_substring
                  [mk_record (Some "h") None "GET /shuttle" 200 (NFin 0) None] " SHUTTLE ")
                  ltac:(vm_compute; discriminate) eq_refl)).
Defined.

(** ** Ranking keys of [top_5_endpoints] (claim C3) *)

(** C3: a url field of one blank gives the request ["GET  "], which has
    no second token; [.str[1]] is NaN for it and [value_counts] drops
    it, so the record does not contribute to the ranking at all. *)
Lemma C3_single_token_request_not_ranked :
  match run_upload (Some [line_blank_url]) NoDf with
  | (RLoaded 1, Table [r], _) =>
      request r = "GET  " /\ py_split (request r) = ["GET"] /\
      match stats (Table [r]) with
      | Some s => s_total s = 1%nat /\ s_top_5_endpoints s = []
      | None => False
      end
  | _ => False
  end.
Proof. vm_compute. repeat split. Qed.

(** ** Hourly buckets (claim C6) *)





Lemma fold_min_bound (l : list Z) (a : Z) :
  fold_left Z.min l a <= a /\ forall y, In y l -> fold_left Z.min l a <= y.
Proof.
  revert a; induction l as [|x l IH]; intro a; simpl.
  - split; [lia | contradiction].
  - destruct (IH (Z.min a x)) as [H1 H2]. split; [lia|].
    intros y [<-|Hy]; [lia | auto].
Qed.

Lemma fold_max_bound (l : list Z) (a : Z) :
  a <= fold_left Z.max l a /\ forall y, In y l -> y <= fold_left Z.max l a.
Proof.
  revert a; induction l as [|x l IH]; intro a; simpl.
  - split; [lia | contradiction].
  - destruct (IH (Z.max a x)) as [H1 H2]. split; [lia|].
    intros y [<-|Hy]; [lia | auto].
Qed.


Lemma somes_nil_iff {A} (xs : list (option A)) :
  somes xs = [] <-> forall o, In o xs -> o = None.
Proof.
  induction xs as [|[a|] xs IH]; simpl.
  - split; [contradiction | reflexivity].
  - split; [discriminate | intro H; discriminate (H (Some a) (or_introl eq_refl))].
  - rewrite IH. split.
    + intros H o [<-|Ho]; auto.
    + intros H o Ho. auto.
Qed.


(** ** Timestamps (claim C10) *)

Lemma code_digit (d : Z) : 0 <= d <= 9 -> code (digit d) = 48 + d.
Proof.
  intro H. unfold code, digit.
  rewrite nat_ascii_embedding by lia. lia.
Qed.

Lemma dec_aux_head (f : nat) (n : Z) (acc : string) :
  (1 <= f)%nat -> 0 <= n ->
  exists d rest, 0 <= d <= 9 /\ dec_aux f n acc = String (digit d) rest.
Proof.
  revert n acc; induction f as [|f IH]; intros n acc Hf Hn; [lia|].
  simpl. destruct (Z.ltb_spec n 10).
  - exists n, acc. split; [lia | reflexivity].
  - destruct f as [|f'].
    + exists (n mod 10), acc. split; [pose proof (Z.mod_pos_bound n 10); lia | reflexivity].
    + apply IH; [lia|]. apply Z.div_pos; lia.
Qed.

Lemma take_digits_digit (d : Z) (r : string) (a : Z) (k : nat) :
  0 <= d <= 9 -> take_digits (String (digit d) r) a k = take_digits r (a * 10 + d) (S k).
Proof.
  intro H. cbn [take_digits].
  assert (E : is_digit (digit d) = true).
  { unfold is_digit. rewrite code_digit by lia.
    apply andb_true_iff. split; apply Z.leb_le; lia. }
  rewrite E, code_digit by lia. f_equal. lia.
Qed.

Lemma take_digits_dec_aux (f : nat) : forall (n : Z) (acc : string) (a : Z) (k : nat),
  (1 <= f)%nat -> 0 <= n < 10 ^ Z.of_nat f ->
  exists len, (0 < len)%nat /\
    take_digits (dec_aux f n acc) a k = take_digits acc (a * 10 ^ Z.of_nat len + n) (k + len).
Proof.
  induction f as [|f IH]; intros n acc a k Hf Hn; [lia|].
  simpl dec_aux. destruct (Z.ltb_spec n 10).
  - exists 1%nat. split; [lia|]. rewrite take_digits_digit by lia.
    f_equal; lia.
  - assert (Hm : 0 <= n mod 10 <= 9) by (pose proof (Z.mod_pos_bound n 10); lia).
    destruct f as [|f'].
    + exfalso. simpl in Hn. lia.
    + destruct (IH (n / 10) (String (digit (n mod 10)) acc) a k) as [len [Hlen E]].
      * lia.
      * split; [apply Z.div_pos; lia|].
        apply Z.div_lt_upper_bound; [lia|].
        rewrite Nat2Z.inj_succ, Z.pow_succ_r in Hn by lia. lia.
      * exists (S len). split; [lia|]. rewrite E, take_digits_digit by lia.
        replace (S (k + len)) with (k + S len)%nat by lia.
        f_equal. rewrite Nat2Z.inj_succ, Z.pow_succ_r by lia.
        pose proof (Z.div_mod n 10). lia.
Qed.

Lemma digit_cases (d : Z) : 0 <= d <= 9 ->
  d = 0 \/ d = 1 \/ d = 2 \/ d = 3 \/ d = 4 \/ d = 5 \/ d = 6 \/ d = 7 \/ d = 8 \/ d = 9.
Proof. intro H. lia. Qed.

(** Case split on a decimal digit. *)
Ltac digit_split d H :=
  let C := fresh "C" in
  pose proof (digit_cases d H) as C;
  repeat match goal with
         | C : _ \/ _ |- _ => destruct C as [C|C]; [subst d|]
         end;
  try subst d.

Lemma take_sign_digit (d : Z) (r : string) :
  0 <= d <= 9 -> take_sign (String (digit d) r) = (false, String (digit d) r).
Proof. intro H. digit_split d H; reflexivity. Qed.

Lemma skip_space_digit (d : Z) (r : string) :
  0 <= d <= 9 -> skip_space (String (digit d) r) = String (digit d) r.
Proof. intro H. digit_split d H; reflexivity. Qed.

Lemma str_to_int64_dec (n : Z) : 0 <= n <= 2 ^ 63 - 1 -> str_to_int64 (dec n) = Some n.
Proof.
  intro Hn.
  assert (Hb : 2 ^ 63 - 1 < 10 ^ Z.of_nat 25) by (vm_compute; reflexivity).
  destruct (dec_aux_head 25 n EmptyString) as [d [rest [Hd Hh]]]; [lia|lia|].
  destruct (take_digits_dec_aux 25 n EmptyString 0 0) as [len [Hlen Ht]]; [lia|lia|].
  assert (Hs : take_sign (skip_space (dec n)) = (false, dec n))
    by (unfold dec; rewrite Hh, skip_space_digit, take_sign_digit by exact Hd; reflexivity).
  unfold str_to_int64. rewrite Hs. unfold dec at 1. rewrite Ht.
  cbn [take_digits skip_space String.eqb negb].
  replace (Nat.eqb (0 + len) 0) with false by (symmetry; apply Nat.eqb_neq; lia).
  cbn [orb]. rewrite Z.mul_0_l, Z.add_0_l.
  replace ((- 2 ^ 63 <=? n) && (n <=? 2 ^ 63 - 1)) with true; [reflexivity|].
  symmetry. apply andb_true_iff. split; apply Z.leb_le; lia.
Qed.

Lemma parse_num_dec (n : Z) : 0 <= n <= 9223372036 ->
  exists q, parse_num (dec n) = Some (NFin q) /\ Qnum q = n /\ Qden q = 1%positive.
Proof.
  intro Hn. unfold parse_num. rewrite str_to_int64_dec.
  - eexists. split; [reflexivity | split; reflexivity].
  - assert (E : 2 ^ 63 - 1 = 9223372036854775807) by reflexivity. lia.
Qed.





(** The sample line of the specification: epoch 804571304 is
    1995-07-01 04:01:44 UTC. *)
Example sample_line_record :
  match run_upload (Some [line_full]) NoDf with
  | (RLoaded 1, Table [r], _) =>
      request r = "GET /shuttle/missions/sts-1" /\ status r = 200 /\
      bytes r = NFin 1024 /\ dt r = Some (804571304 * ns_per_s) /\
      time r = Some "01/Jul/1995:04:01:44"
  | _ => False
  end.
Proof. vm_compute. repeat split. Qed.


(* ================================================================== *)
(** * Further properties of the handlers *)

(** ** [value_counts] and the rankings of [stats()] *)

Lemma somes_In {A} (xs : list (option A)) (a : A) : In a (somes xs) <-> In (Some a) xs.
Proof.
  unfold somes. rewrite in_flat_map. split.
  - intros [[b|] [Ho Ha]]; simpl in Ha; [destruct Ha as [<-|[]]; exact Ho | contradiction].
  - intro H. exists (Some a). simpl. auto.
Qed.

Lemma length_somes {A} (xs : list (option A)) : (length (somes xs) <= length xs)%nat.
Proof.
  induction xs as [|[a|] xs IH]; simpl; [lia | |]; unfold somes in *; simpl; lia.
Qed.

Lemma add_key_keys (k k' : string) (acc : list (string * nat)) :
  In k' (map fst (add_key k acc)) <-> k' = k \/ In k' (map fst acc).
Proof.
  induction acc as [|[k0 n0] acc IH]; simpl.
  - intuition congruence.
  - destruct (String.eqb_spec k k0) as [->|Hne]; simpl; [intuition congruence|].
    rewrite IH. intuition congruence.
Qed.

Lemma add_key_nodup (k : string) (acc : list (string * nat)) :
  NoDup (map fst acc) -> NoDup (map fst (add_key k acc)).
Proof.
  induction acc as [|[k0 n0] acc IH]; simpl; intro H.
  - constructor; [intros []|constructor].
  - inversion H as [|? ? Hn Hd]; subst.
    destruct (String.eqb_spec k k0) as [->|Hne]; simpl.
    + constructor; assumption.
    + constructor; [|auto]. rewrite add_key_keys. intros [->|Hi]; [congruence|contradiction].
Qed.

Lemma add_key_entry (k k' : string) (n : nat) (acc : list (string * nat)) :
  NoDup (map fst acc) -> In (k', n) (add_key k acc) ->
  (k' = k /\ ((n = 1%nat /\ ~ In k (map fst acc)) \/ exists m, n = S m /\ In (k, m) acc))
  \/ (k' <> k /\ In (k', n) acc).
Proof.
  induction acc as [|[k0 n0] acc IH]; simpl; intros Hd H.
  - destruct H as [E|[]]. injection E as <- <-. left. split; [reflexivity|]. left. auto.
  - inversion Hd as [|? ? Hn Hd']; subst.
    destruct (String.eqb_spec k k0) as [->|Hne]; simpl in H.
    + destruct H as [E|H].
      * injection E as <- <-. left. split; [reflexivity|]. right. exists n0. auto.
      * right. split; [|auto]. intros ->. apply Hn. apply (in_map fst _ _ H).
    + destruct H as [E|H].
      * injection E as <- <-. right. auto.
      * destruct (IH Hd' H) as [[-> [[-> Hni]|[m [-> Hm]]]]|[Hk Hi]].
        -- left. split; [reflexivity|]. left. split; [reflexivity|]. simpl. intuition.
        -- left. split; [reflexivity|]. right. exists m. auto.
        -- right. auto.
Qed.

(** What the counting pass of [value_counts] keeps after reading [ys]. *)
Lemma add_key_step (ys : list string) (x : string) (acc : list (string * nat)) :
  NoDup (map fst acc) /\
  (forall k n, In (k, n) acc -> n = count_occ string_dec ys k) /\
  (forall k, In k (map fst acc) <-> In k ys) ->
  NoDup (map fst (add_key x acc)) /\
  (forall k n, In (k, n) (add_key x acc) -> n = count_occ string_dec (ys ++ [x]) k) /\
  (forall k, In k (map fst (add_key x acc)) <-> In k (ys ++ [x])).
Proof.
  intros (Hd & Hc & Hk). split; [|split].
  - apply add_key_nodup, Hd.
  - intros k n H. rewrite count_occ_app. simpl.
    destruct (add_key_entry x k n acc Hd H) as [[-> [[-> Hni]|[m [-> Hm]]]]|[Hne Hi]].
    + destruct (string_dec x x) as [_|C]; [|congruence].
      assert (Z0 : count_occ string_dec ys x = 0%nat)
        by (apply count_occ_not_In; rewrite <- Hk; exact Hni).
      lia.
    + destruct (string_dec x x) as [_|C]; [|congruence].
      rewrite (Hc x m Hm). lia.
    + destruct (string_dec x k) as [E|_]; [congruence|].
      rewrite (Hc k n Hi). lia.
  - intro k. rewrite add_key_keys, Hk, in_app_iff. simpl. intuition.
Qed.

Lemma add_key_fold (xs ys : list string) (acc : list (string * nat)) :
  NoDup (map fst acc) /\
  (forall k n, In (k, n) acc -> n = count_occ string_dec ys k) /\
  (forall k, In k (map fst acc) <-> In k ys) ->
  let acc' := fold_left (fun acc k => add_key k acc) xs acc in
  NoDup (map fst acc') /\
  (forall k n, In (k, n) acc' -> n = count_occ string_dec (ys ++ xs) k) /\
  (forall k, In k (map fst acc') <-> In k (ys ++ xs)).
Proof.
  revert ys acc; induction xs as [|x xs IH]; intros ys acc H; simpl.
  - rewrite app_nil_r. exact H.
  - replace (ys ++ x :: xs)%list with ((ys ++ [x]) ++ xs)%list by (rewrite <- app_assoc; reflexivity).
    apply IH, add_key_step, H.
Qed.

Lemma insert_desc_perm (x : string * nat) (l : list (string * nat)) :
  Permutation (insert_desc x l) (x :: l).
Proof.
  induction l as [|y l IH]; simpl; [reflexivity|].
  destruct (Nat.ltb (snd y) (snd x)); [reflexivity|].
  eapply perm_trans; [apply perm_skip, IH | apply perm_swap].
Qed.

Lemma insert_desc_sorted (x : string * nat) (l : list (string * nat)) :
  Sorted (fun a b => (snd b <= snd a)%nat) l ->
  Sorted (fun a b => (snd b <= snd a)%nat) (insert_desc x l).
Proof.
  induction l as [|y l IH]; simpl; intro H.
  - repeat constructor.
  - destruct (Nat.ltb_spec (snd y) (snd x)) as [Hlt|Hge].
    + constructor; [exact H | constructor; lia].
    + inversion H as [|? ? Hs Hh]; subst. constructor; [apply IH, Hs|].
      destruct l as [|z l]; simpl.
      * constructor. exact Hge.
      * destruct (Nat.ltb (snd z) (snd x)); constructor; [exact Hge|].
        inversion Hh; assumption.
Qed.

Lemma insert_fold_perm (l acc : list (string * nat)) :
  Permutation (fold_left (fun acc x => insert_desc x acc) l acc) (l ++ acc).
Proof.
  revert acc; induction l as [|x l IH]; intro acc; simpl; [reflexivity|].
  eapply perm_trans; [apply IH|].
  eapply perm_trans; [apply Permutation_app_head, insert_desc_perm|].
  apply Permutation_sym, Permutation_middle.
Qed.

Lemma insert_fold_sorted (l acc : list (string * nat)) :
  Sorted (fun a b => (snd b <= snd a)%nat) acc ->
  Sorted (fun a b => (snd b <= snd a)%nat) (fold_left (fun acc x => insert_desc x acc) l acc).
Proof.
  revert acc; induction l as [|x l IH]; intros acc H; simpl; [exact H|].
  apply IH, insert_desc_sorted, H.
Qed.

(** [value_counts] lists each non-NaN key once, with its number of
    occurrences, in non-increasing order of counts. *)
Lemma value_counts_spec (ks : list (option string)) :
  let vc := value_counts ks in
  NoDup (map fst vc) /\
  (forall k n, In (k, n) vc -> n = count_occ string_dec (somes ks) k /\ (1 <= n)%nat) /\
  (forall k, In k (map fst vc) <-> In (Some k) ks) /\
  StronglySorted (fun a b => (snd b <= snd a)%nat) vc.
Proof.
  cbv zeta. unfold value_counts.
  destruct (add_key_fold (somes ks) [] [])
    as (Hd & Hc & Hk); [split; [constructor | split; [intros ? ? [] | reflexivity]]|].
  simpl in Hc, Hk.
  set (C := fold_left (fun acc k => add_key k acc) (somes ks) []) in *.
  pose proof (insert_fold_perm C []) as P. rewrite app_nil_r in P.
  split; [|split; [|split]].
  - apply (Permutation_NoDup (Permutation_map fst (Permutation_sym P)) Hd).
  - intros k n H. apply (Permutation_in _ P) in H.
    split; [apply Hc, H|].
    rewrite (Hc k n H). apply count_occ_In, Hk, (in_map fst _ _ H).
  - intro k. rewrite <- somes_In, <- Hk.
    split; apply Permutation_in; apply Permutation_map; [|apply Permutation_sym]; exact P.
  - apply Sorted_StronglySorted; [intros a b c; simpl; lia|].
    apply insert_fold_sorted. constructor.
Qed.

Lemma value_counts_length (ks : list (option string)) :
  length (value_counts ks) = length (nodup string_dec (somes ks)).
Proof.
  destruct (value_counts_spec ks) as (Hd & _ & Hk & _).
  rewrite <- (length_map fst).
  apply Nat.le_antisymm; apply NoDup_incl_length; try assumption; try apply NoDup_nodup;
    intros k Hi.
  - apply nodup_In, somes_In, Hk, Hi.
  - apply Hk, somes_In, (nodup_In string_dec), Hi.
Qed.

Lemma ssorted_firstn {A} (R : A -> A -> Prop) (n : nat) (l : list A) :
  StronglySorted R l -> StronglySorted R (firstn n l).
Proof.
  revert n; induction l as [|a l IH]; intros [|n] H; simpl; try apply SSorted_nil.
  inversion H as [|? ? Hs Hf]; subst. constructor; [apply IH, Hs|].
  rewrite Forall_forall in *. intros x Hx. apply Hf, (in_firstn n), Hx.
Qed.

Lemma ssorted_nth {A} (R : A -> A -> Prop) (l : list A) (i j : nat) (a b : A) :
  StronglySorted R l -> (i < j)%nat -> nth_error l i = Some a -> nth_error l j = Some b -> R a b.
Proof.
  revert i j; induction l as [|x l IH]; intros [|i] [|j] H Hij Ha Hb;
    simpl in *; try discriminate; try lia.
  - injection Ha as <-. inversion H as [|? ? _ Hf]; subst.
    rewrite Forall_forall in Hf. apply Hf, (nth_error_In _ _ Hb).
  - inversion H; subst. apply (IH i j); auto; lia.
Qed.

Lemma ssorted_app {A} (R : A -> A -> Prop) (l1 l2 : list A) (a b : A) :
  StronglySorted R (l1 ++ l2) -> In a l1 -> In b l2 -> R a b.
Proof.
  induction l1 as [|x l1 IH]; simpl; intros H Ha Hb; [contradiction|].
  inversion H as [|? ? Hs Hf]; subst. destruct Ha as [<-|Ha].
  - rewrite Forall_forall in Hf. apply Hf, in_app_iff. auto.
  - apply IH; assumption.
Qed.

(** The first five entries of [value_counts]: how [head(5)] ranks. *)
Lemma top5_spec (ks : list (option string)) :
  let keys := somes ks in
  let top := firstn 5 (value_counts ks) in
  length top = Nat.min 5 (length (nodup string_dec keys)) /\
  NoDup (map fst top) /\
  (forall k n, In (k, n) top -> n = count_occ string_dec keys k /\ (1 <= n)%nat) /\
  (forall i j a b, (i < j)%nat -> nth_error top i = Some a -> nth_error top j = Some b ->
     (snd b <= snd a)%nat) /\
  (forall k, In k keys -> ~ In k (map fst top) ->
     forall e, In e top -> (count_occ string_dec keys k <= snd e)%nat).
Proof.
  cbv zeta.
  destruct (value_counts_spec ks) as (Hd & Hc & Hk & Hs).
  set (vc := value_counts ks) in *.
  split; [|split; [|split; [|split]]].
  - rewrite length_firstn, <- value_counts_length. reflexivity.
  - rewrite <- firstn_map. rewrite <- (firstn_skipn 5 (map fst vc)) in Hd.
    apply NoDup_app_remove_r in Hd. exact Hd.
  - intros k n H. apply Hc, (in_firstn 5), H.
  - intros i j a b Hij Ha Hb.
    apply (ssorted_nth (fun a b : string * nat => (snd b <= snd a)%nat) (firstn 5 vc) i j);
      [apply ssorted_firstn, Hs | exact Hij | exact Ha | exact Hb].
  - intros k Hin Hn e He.
    apply somes_In, Hk, in_map_iff in Hin. destruct Hin as [[k' c] [Ek Hkc]].
    simpl in Ek. subst k'.
    destruct (Hc k c Hkc) as [Ec _]. rewrite <- Ec.
    rewrite <- (firstn_skipn 5 vc) in Hs, Hkc.
    apply in_app_iff in Hkc. destruct Hkc as [Hkc|Hkc].
    + exfalso. apply Hn. apply (in_map fst _ _ Hkc).
    + apply (ssorted_app _ _ _ e (k, c) Hs He Hkc).
Qed.

(** X1: [stats()] always succeeds on a loaded table, and its
    [unique_ips] is the number of distinct non-missing hosts, never more
    than [total_requests]. *)
Theorem unique_ips_distinct_hosts (t : list record) :
  exists s, stats (Table t) = Some s /\
    s_unique_ips s = length (nodup string_dec (somes (map host t))) /\
    (s_unique_ips s <= s_total s)%nat.
Proof.
  destruct t as [|r t].
  - exists (mk_stats 0 0 (Some (NFin 0)) [] [] (Some [])). repeat split. simpl. lia.
  - eexists. split; [reflexivity|]. cbn [s_unique_ips s_total].
    rewrite value_counts_length. split; [reflexivity|].
    transitivity (length (somes (map host (r :: t)))).
    + apply NoDup_incl_length; [apply NoDup_nodup|]. intros k Hk. apply nodup_In in Hk. exact Hk.
    + rewrite <- (length_map host (r :: t)). apply length_somes.
Qed.

(** X2: [top_ips] lists min(5, number of distinct hosts) distinct hosts,
    each with its exact (positive) number of occurrences, in non-increasing
    order of count; a host left out occurs no more often than any listed one. *)
Theorem top_5_ips_ranked (t : list record) :
  let hosts := somes (map host t) in
  let top := top_5_ips t in
  length top = Nat.min 5 (length (nodup string_dec hosts)) /\
  NoDup (map fst top) /\
  (forall h n, In (h, n) top -> n = count_occ string_dec hosts h /\ (1 <= n)%nat) /\
  (forall i j a b, (i < j)%nat -> nth_error top i = Some a -> nth_error top j = Some b ->
     (snd b <= snd a)%nat) /\
  (forall h, In h hosts -> ~ In h (map fst top) ->
     forall e, In e top -> (count_occ string_dec hosts h <= snd e)%nat).
Proof. exact (top5_spec (map host t)). Qed.

(** X3: [top_endpoints] ranks the second whitespace-separated token of
    the requests the same way: min(5, distinct endpoints) distinct entries
    with exact positive counts, non-increasing, none left out outranking
    a listed one. *)
Theorem top_5_endpoints_ranked (t : list record) :
  let endpoints := somes (map (fun r => nth_error (py_split (request r)) 1) t) in
  let top := top_5_endpoints t in
  length top = Nat.min 5 (length (nodup string_dec endpoints)) /\
  NoDup (map fst top) /\
  (forall u n, In (u, n) top -> n = count_occ string_dec endpoints u /\ (1 <= n)%nat) /\
  (forall i j a b, (i < j)%nat -> nth_error top i = Some a -> nth_error top j = Some b ->
     (snd b <= snd a)%nat) /\
  (forall u, In u endpoints -> ~ In u (map fst top) ->
     forall e, In e top -> (count_occ string_dec endpoints u <= snd e)%nat).
Proof. exact (top5_spec (map (fun r => nth_error (py_split (request r)) 1) t)). Qed.

Lemma sappend_nil_r (s : string) : s ++ EmptyString = s.
Proof. induction s as [|c s IH]; simpl; congruence. Qed.

Lemma sappend_assoc (a b c : string) : (a ++ b) ++ c = a ++ (b ++ c).
Proof. induction a as [|x a IH]; simpl; congruence. Qed.

Lemma py_split_aux_word (w rest cur : string) :
  forallb (fun c => negb (py_space c)) (list_ascii_of_string w) = true ->
  py_split_aux (w ++ rest) cur = py_split_aux rest (cur ++ w).
Proof.
  revert cur; induction w as [|c w IH]; intros cur H; simpl.
  - rewrite sappend_nil_r. reflexivity.
  - simpl in H. apply andb_prop in H. destruct H as [Hc Hw].
    destruct (py_space c); [discriminate|].
    rewrite IH by exact Hw. rewrite sappend_assoc. reflexivity.
Qed.

(** X4: for a request of the form [method url] (two non-empty tokens
    without whitespace, one space between), [str.split()] gives exactly
    the two tokens and the endpoint is the url. *)
Theorem endpoint_of_two_token_request (r : record) (m u : string) :
  request r = m ++ " " ++ u -> m <> EmptyString -> u <> EmptyString ->
  forallb (fun c => negb (py_space c)) (list_ascii_of_string m) = true ->
  forallb (fun c => negb (py_space c)) (list_ascii_of_string u) = true ->
  py_split (request r) = [m; u] /\ nth_error (py_split (request r)) 1 = Some u.
Proof.
  intros Hr Hm Hu Wm Wu. rewrite Hr.
  assert (E : py_split (m ++ " " ++ u) = [m; u]).
  { unfold py_split. rewrite (py_split_aux_word m _ _ Wm). simpl.
    apply String.eqb_neq in Hm. rewrite Hm.
    rewrite <- (sappend_nil_r u), (py_split_aux_word u _ _ Wu). simpl.
    rewrite sappend_nil_r. apply String.eqb_neq in Hu. rewrite Hu. reflexivity. }
  rewrite E. split; reflexivity.
Qed.

Lemma endpoint_of_two_token_request_witness :
  py_split (request (mk_record None None "GET /index.html" 200 (NFin 0) None)) =
    ["GET"; "/index.html"] /\
  nth_error (py_split (request (mk_record None None "GET /index.html" 200 (NFin 0) None))) 1 =
    Some "/index.html".
Proof.
  apply (endpoint_of_two_token_request
           (mk_record None None "GET /index.html" 200 (NFin 0) None) "GET" "/index.html");
    [reflexivity | discriminate | discriminate | reflexivity | reflexivity].
Defined.

(** ** The hourly series of [stats()] *)

Lemma nth_error_map_seq {A} (f : nat -> A) (s n i : nat) :
  nth_error (map f (seq s n)) i = if Nat.ltb i n then Some (f (s + i)%nat) else None.
Proof.
  revert s i; induction n as [|n IH]; intros s [|i]; simpl; try reflexivity.
  - rewrite Nat.add_0_r. reflexivity.
  - rewrite IH. replace (S s + i)%nat with (s + S i)%nat by lia. reflexivity.
Qed.

Lemma bucket_iff (x b : Z) : bucket x = b <-> b * ns_per_hour <= x < b * ns_per_hour + ns_per_hour.
Proof.
  unfold bucket. assert (H : ns_per_hour = 3600000000000) by reflexivity. rewrite H.
  split.
  - intros <-. pose proof (Z.div_mod x 3600000000000) as D.
    pose proof (Z.mod_pos_bound x 3600000000000) as B. lia.
  - intro Hx. symmetry. apply (Z.div_unique x 3600000000000 b (x - b * 3600000000000)); lia.
Qed.

Lemma count_in_records (b : Z) (t : list record) :
  count_in b (somes (map dt t)) =
  length (filter (fun r => match dt r with
                           | Some x => (b * ns_per_hour <=? x) && (x <? b * ns_per_hour + ns_per_hour)
                           | None => false end) t).
Proof.
  induction t as [|r t IH]; [reflexivity|]. simpl.
  destruct (dt r) as [x|]; [|exact IH].
  unfold count_in in *. simpl.
  destruct (Z.eqb_spec (bucket x) b) as [E|E];
    apply bucket_iff in E || (assert (~ (b * ns_per_hour <= x < b * ns_per_hour + ns_per_hour))
                                 by (rewrite <- bucket_iff; exact E)).
  - replace ((b * ns_per_hour <=? x) && (x <? b * ns_per_hour + ns_per_hour)) with true
      by (symmetry; apply andb_true_iff; split; [apply Z.leb_le | apply Z.ltb_lt]; lia).
    simpl. rewrite IH. reflexivity.
  - replace ((b * ns_per_hour <=? x) && (x <? b * ns_per_hour + ns_per_hour)) with false.
    + exact IH.
    + symmetry. apply andb_false_iff.
      destruct (Z.le_gt_cases (b * ns_per_hour) x);
        [right; apply Z.ltb_ge | left; apply Z.leb_gt]; lia.
Qed.

Lemma fold_min_attained (l : list Z) (a : Z) :
  fold_left Z.min l a = a \/ In (fold_left Z.min l a) l.
Proof.
  revert a; induction l as [|x l IH]; intro a; simpl; [auto|].
  destruct (IH (Z.min a x)) as [E|E].
  - rewrite E. destruct (Z.min_spec a x) as [[_ E']|[_ E']]; rewrite E'; auto.
  - right; right; exact E.
Qed.

Lemma fold_max_attained (l : list Z) (a : Z) :
  fold_left Z.max l a = a \/ In (fold_left Z.max l a) l.
Proof.
  revert a; induction l as [|x l IH]; intro a; simpl; [auto|].
  destruct (IH (Z.max a x)) as [E|E].
  - rewrite E. destruct (Z.max_spec a x) as [[_ E']|[_ E']]; rewrite E'; auto.
  - right; right; exact E.
Qed.

Lemma count_in_pos (b : Z) (ts : list Z) : (exists y, In y ts /\ bucket y = b) -> (1 <= count_in b ts)%nat.
Proof.
  intros [y [Hy Hb]]. unfold count_in.
  assert (Hf : In y (filter (fun x => Z.eqb (bucket x) b) ts))
    by (apply filter_In; split; [exact Hy | apply Z.eqb_eq, Hb]).
  destruct (filter _ ts); [contradiction | simpl; lia].
Qed.

Lemma attained_bucket (f : list Z -> Z -> Z) (x : Z) (rs : list Z) :
  (f (map bucket rs) (bucket x) = bucket x \/ In (f (map bucket rs) (bucket x)) (map bucket rs)) ->
  exists y, In y (x :: rs) /\ bucket y = f (map bucket rs) (bucket x).
Proof.
  intros [E|E].
  - exists x. split; [left; reflexivity | symmetry; exact E].
  - apply in_map_iff in E. destruct E as [y [Ey Hy]]. exists y. split; [right; exact Hy | exact Ey].
Qed.

Lemma somes_map_dt_In (t : list record) (y : Z) :
  In y (somes (map dt t)) <-> exists r, In r t /\ dt r = Some y.
Proof.
  rewrite somes_In, in_map_iff. split; intros [r [H1 H2]]; exists r; split; assumption.
Qed.

Lemma normalize_ge (y : Z) : ts_lo <= y -> - 2 ^ 63 <= normalize y.
Proof.
  unfold ts_lo, normalize, day_ns, ns_per_s. intro H.
  change (10 ^ 9) with 1000000000 in *. change (- 2 ^ 63) with (-9223372036854775808).
  pose proof (Z.div_mod y (86400 * 1000000000)) as D.
  pose proof (Z.mod_pos_bound y (86400 * 1000000000)) as B. lia.
Qed.

Lemma normalize_lt (y : Z) : y < ts_lo -> normalize y < - 2 ^ 63.
Proof.
  unfold ts_lo, normalize, day_ns, ns_per_s. intro H.
  change (10 ^ 9) with 1000000000 in *. change (- 2 ^ 63) with (-9223372036854775808).
  pose proof (Z.div_mod y (86400 * 1000000000)) as D.
  pose proof (Z.mod_pos_bound y (86400 * 1000000000)) as B. lia.
Qed.

Lemma bucket_below_hi (y : Z) : y < ts_hi -> (bucket y + 1) * ns_per_hour <= 2 ^ 63 - 1.
Proof.
  unfold ts_hi, bucket, ns_per_hour, ns_per_s. intro H.
  change (10 ^ 9) with 1000000000 in *. change (2 ^ 63 - 1) with 9223372036854775807.
  pose proof (Z.div_mod y (3600 * 1000000000)) as D.
  pose proof (Z.mod_pos_bound y (3600 * 1000000000)) as B. lia.
Qed.


(** With every timestamp in [[ts_lo, ts_hi)], the series is the hourly
    bins. *)
Lemma requests_over_time_in_range (t : list record) (x : Z) (r : list Z) :
  somes (map dt t) = x :: r -> (forall y, In y (x :: r) -> ts_lo <= y < ts_hi) ->
  requests_over_time t = Some (hourly_series x r).
Proof.
  intros Hs Hr. unfold requests_over_time. rewrite Hs.
  replace (normalize (fold_left Z.min r x) <? - 2 ^ 63) with false.
  - destruct (attained_bucket (fold_left Z.max) x r (fold_max_attained _ _)) as [y [Hy Hb]].
    rewrite <- Hb.
    replace (2 ^ 63 - 1 <? (bucket y + 1) * ns_per_hour) with false; [reflexivity|].
    symmetry. apply Z.ltb_ge, bucket_below_hi, Hr, Hy.
  - symmetry. apply Z.ltb_ge, normalize_ge.
    destruct (fold_min_attained r x) as [E|E]; rewrite ?E; apply Hr; [left; reflexivity | right; exact E].
Qed.

Lemma range_somes (t : list record) (P : Z -> Prop) :
  (forall r x, In r t -> dt r = Some x -> P x) -> forall y, In y (somes (map dt t)) -> P y.
Proof.
  intros H y Hy. apply somes_map_dt_In in Hy. destruct Hy as [r [Hr Hd]]. exact (H r y Hr Hd).
Qed.




(** ** The error rate (claim C7) *)






















(** X5: when every timestamp lies in [[ts_lo, ts_hi)], the hourly series
    of [requests_over_time] is defined; it is empty exactly when no
    record has a timestamp; otherwise each label is a whole hour, each
    count is the number of timestamps in that hour, consecutive labels
    are one hour apart, and the first and last hours are non-empty. *)
Theorem hourly_series_shape (t : list record) :
  (forall r x, In r t -> dt r = Some x -> ts_lo <= x < ts_hi) ->
  exists out, requests_over_time t = Some out /\
  (out = [] <-> forall r, In r t -> dt r = None) /\
  (forall i lbl c, nth_error out i = Some (lbl, c) ->
     lbl mod ns_per_hour = 0 /\
     c = length (filter (fun r => match dt r with
                                  | Some x => (lbl <=? x) && (x <? lbl + ns_per_hour)
                                  | None => false end) t)) /\
  (forall i l1 c1 l2 c2, nth_error out i = Some (l1, c1) -> nth_error out (S i) = Some (l2, c2) ->
     l2 = l1 + ns_per_hour) /\
  (forall l c, nth_error out 0 = Some (l, c) -> (1 <= c)%nat) /\
  (forall l c, nth_error out (pred (length out)) = Some (l, c) -> (1 <= c)%nat).
Proof.
  intro Hrange.
  pose proof (count_in_records) as Hcr.
  pose proof (somes_nil_iff (map dt t)) as Hnil.
  pose proof (range_somes t _ Hrange) as Hr.
  destruct (somes (map dt t)) as [|x rs] eqn:Hs.
  - exists []. split; [unfold requests_over_time; rewrite Hs; reflexivity|].
    split; [|split; [|split; [|split]]]; intros; try discriminate;
      try (destruct i; discriminate); try (simpl in *; discriminate).
    split; [intros _ r Hr'; apply (proj1 Hnil eq_refl), in_map, Hr' | reflexivity].
  - exists (hourly_series x rs).
    split; [apply requests_over_time_in_range; [exact Hs | exact Hr]|].
    unfold hourly_series.
    set (lo := fold_left Z.min (map bucket rs) (bucket x)).
    set (hi := fold_left Z.max (map bucket rs) (bucket x)).
    destruct (fold_min_bound (map bucket rs) (bucket x)) as [Hl1 _].
    destruct (fold_max_bound (map bucket rs) (bucket x)) as [Hh1 _].
    fold lo in Hl1. fold hi in Hh1.
    set (N := Z.to_nat (hi - lo + 1)).
    assert (HN : Z.of_nat N = hi - lo + 1) by (unfold N; lia).
    split; [|split; [|split; [|split]]].
    + split; [intro E; apply map_eq_nil in E; unfold N in E;
              destruct (Z.to_nat (hi - lo + 1)) eqn:Z0; [lia | discriminate]|].
      intro Hall. exfalso.
      assert (Hx : In x (somes (map dt t))) by (rewrite Hs; left; reflexivity).
      apply somes_In, in_map_iff in Hx. destruct Hx as [r [Er Hr']].
      rewrite (Hall r Hr') in Er. discriminate.
    + intros i lbl c H. rewrite nth_error_map_seq in H.
      destruct (Nat.ltb i N); [|discriminate]. injection H as <- <-.
      split; [apply Z.mod_mul; discriminate|].
      rewrite <- Hs, Hcr. reflexivity.
    + intros i l1 c1 l2 c2 H1 H2. rewrite nth_error_map_seq in H1, H2.
      destruct (Nat.ltb i N); [|discriminate]. destruct (Nat.ltb (S i) N); [|discriminate].
      injection H1 as <- _. injection H2 as <- _. lia.
    + intros l c H. rewrite nth_error_map_seq in H.
      destruct (Nat.ltb 0 N); [|discriminate]. injection H as _ <-.
      apply count_in_pos.
      destruct (attained_bucket (fold_left Z.min) x rs (fold_min_attained _ _)) as [y [Hy Hb]].
      fold lo in Hb. exists y. split; [exact Hy | rewrite Hb; lia].
    + intros l c H. rewrite length_map, length_seq, nth_error_map_seq in H.
      destruct (Nat.ltb (pred N) N); [|discriminate]. injection H as _ <-.
      apply count_in_pos.
      destruct (attained_bucket (fold_left Z.max) x rs (fold_max_attained _ _)) as [y [Hy Hb]].
      fold hi in Hb. exists y. split; [exact Hy | rewrite Hb; lia].
Qed.

Lemma hourly_series_shape_witness :
  exists out, requests_over_time [mk_record None None "x" 0 (NFin 0) (Some 0)] = Some out /\
    out <> [].
Proof.
  destruct (hourly_series_shape [mk_record None None "x" 0 (NFin 0) (Some 0)]) as [out [Ho [Hn _]]].
  - intros r x [<-|[]] E. cbn in E. injection E as <-.
    split; [apply Z.leb_le | apply Z.ltb_lt]; reflexivity.
  - exists out. split; [exact Ho|]. intro E. pose proof (proj1 Hn E) as E'. clear E. rename E' into E.
    discriminate (E _ (or_introl eq_refl)).
Defined.


(** ** Numeric fields of [upload()] *)

(** X6: after a successful upload, a status field written as a decimal
    becomes exactly that integer, and a bytes field written as a decimal
    becomes exactly that number (for values up to 9223372036). *)
Theorem decimal_fields_exact (lines : list string) (g g' : gstate) (n : nat)
  (tr : list gstate) :
  run_upload (Some lines) g = (RLoaded n, g', tr) ->
  exists t, g' = Table t /\
    Forall2 (fun row rec =>
      (forall s, 0 <= s <= 9223372036 -> r_status row = Some (dec s) -> status rec = s) /\
      (forall b, 0 <= b <= 9223372036 -> r_bytes row = Some (dec b) -> bytes rec = NFin (b # 1)))
      (read_csv lines) t.
Proof.
  intro H. destruct (upload_loaded _ _ _ _ _ H) as [t [-> [_ Hf]]].
  exists t. split; [reflexivity|].
  eapply Forall2_impl; [|exact Hf].
  intros row rec (_ & _ & _ & _ & Hb & Hs). split.
  - intros s Hr E. unfold status_num, to_numeric in Hs. rewrite E in Hs.
    destruct (parse_num_dec s Hr) as [[qn qd] [Hp [Hn Hd]]].
    simpl in Hn, Hd. subst qn qd. rewrite Hp in Hs. simpl in Hs.
    injection Hs as <-. unfold trunc, to_int64. simpl Qnum. simpl Qden.
    rewrite Z.quot_1_r.
    assert (E2 : 2 ^ 63 = 9223372036854775808) by reflexivity. rewrite E2.
    match goal with |- context [if ?c then _ else _] => destruct c eqn:B end;
      [reflexivity|].
    exfalso. apply andb_false_iff in B.
    destruct B as [B|B]; [apply Z.leb_gt in B | apply Z.ltb_ge in B]; lia.
  - intros b Hr E. rewrite Hb. unfold bytes_of, to_numeric. rewrite E.
    destruct (parse_num_dec b Hr) as [[qn qd] [Hp [Hn Hd]]].
    simpl in Hn, Hd. subst qn qd. rewrite Hp. reflexivity.
Qed.

Lemma decimal_fields_exact_witness :
  exists t, snd (fst (run_upload (Some [line_full]) NoDf)) = Table t /\
    Forall2 (fun row rec =>
      (forall s, 0 <= s <= 9223372036 -> r_status row = Some (dec s) -> status rec = s) /\
      (forall b, 0 <= b <= 9223372036 -> r_bytes row = Some (dec b) -> bytes rec = NFin (b # 1)))
      (read_csv [line_full]) t.
Proof.
  destruct (decimal_fields_exact [line_full] NoDf
              (snd (fst (run_upload (Some [line_full]) NoDf))) 1
              (snd (run_upload (Some [line_full]) NoDf)))
    as [t [Ht Hf]].
  - vm_compute. reflexivity.
  - exists t. split; assumption.
Defined.

(** ** The [time] column *)

Lemma all_in_spec (f : Z -> bool) (s : Z) (n : nat) :
  all_in f s n = true -> forall z, s <= z < s + Z.of_nat n -> f z = true.
Proof.
  revert s; induction n as [|n IH]; intros s H z Hz; simpl in H; [lia|].
  destruct (f s) eqn:E; [|discriminate].
  destruct (Z.eq_dec z s) as [->|Hne]; [exact E|].
  apply (IH (s + 1) H). lia.
Qed.

Lemma pad2_range : all_in (fun n => String.length (pad2 n) =? 2)%nat 0 100 = true.
Proof. vm_compute. reflexivity. Qed.

Lemma pad2_length (n : Z) : 0 <= n < 100 -> String.length (pad2 n) = 2%nat.
Proof.
  intro H. apply Nat.eqb_eq. apply (all_in_spec _ 0 100 pad2_range). simpl. lia.
Qed.

Lemma slength_app (a b : string) : String.length (a ++ b) = (String.length a + String.length b)%nat.
Proof. induction a as [|c a IH]; simpl; [reflexivity | rewrite IH; reflexivity]. Qed.

Lemma div_diff_le (a b c : Z) : 0 < c -> a <= b -> 0 <= b / c - a / c <= b - a.
Proof.
  intros Hc Hab. pose proof (Z.div_le_mono a b c Hc Hab).
  pose proof (Z.div_mod a c ltac:(lia)). pose proof (Z.div_mod b c ltac:(lia)).
  pose proof (Z.mod_pos_bound a c Hc). pose proof (Z.mod_pos_bound b c Hc).
  split; [lia|]. nia.
Qed.

Lemma yoe_of_mono (a b : Z) : 0 <= a -> a <= b -> yoe_of a <= yoe_of b.
Proof.
  intros Ha Hab. unfold yoe_of. apply Z.div_le_mono; [lia|].
  pose proof (div_diff_le a b 1460 ltac:(lia) Hab) as H1.
  assert (E : forall x, x / 146096 = x / 36524 / 4)
    by (intro x; rewrite Z.div_div; [reflexivity | lia | lia]).
  rewrite !E.
  pose proof (div_diff_le (a / 36524) (b / 36524) 4 ltac:(lia)
                (Z.div_le_mono a b 36524 ltac:(lia) Hab)) as H2.
  lia.
Qed.

Lemma mod_shift (Y e c k : Z) : c <> 0 -> k * c = 400 -> (Y + 400 * e) mod c = Y mod c.
Proof.
  intros Hc Hk. replace (Y + 400 * e) with (Y + (k * e) * c) by (rewrite <- Hk; ring).
  apply Z_mod_plus_full.
Qed.

Lemma leap_shift (Y e : Z) : is_leap (Y + 400 * e) = is_leap Y.
Proof.
  unfold is_leap.
  rewrite (mod_shift Y e 4 100), (mod_shift Y e 100 4), (mod_shift Y e 400 1) by lia.
  reflexivity.
Qed.

Lemma days_before_month_shift (Y e m : Z) :
  days_before_month (Y + 400 * e) m = days_before_month Y m.
Proof. unfold days_before_month, month_length. rewrite leap_shift. reflexivity. Qed.

Lemma leaps_upto_shift (x e : Z) : leaps_upto (x + 400 * e) = leaps_upto x + 97 * e.
Proof.
  unfold leaps_upto.
  replace (x + 400 * e) with (x + (100 * e) * 4) by ring. rewrite Z.div_add by lia.
  replace (x + 100 * e * 4) with (x + (4 * e) * 100) by ring. rewrite Z.div_add by lia.
  replace (x + 4 * e * 100) with (x + e * 400) by ring. rewrite Z.div_add by lia.
  ring.
Qed.

Lemma gregorian_days_shift (Y e m d : Z) :
  gregorian_days (Y + 400 * e) m d = gregorian_days Y m d + 146097 * e.
Proof.
  unfold gregorian_days. rewrite days_before_month_shift.
  replace (Y + 400 * e - 1) with ((Y - 1) + 400 * e) by ring.
  rewrite leaps_upto_shift. ring.
Qed.

Lemma leap_step (Y : Z) : leaps_upto Y - leaps_upto (Y - 1) = if is_leap Y then 1 else 0.
Proof.
  unfold leaps_upto, is_leap.
  pose proof (Z.div_mod Y 4 ltac:(lia)). pose proof (Z.div_mod (Y - 1) 4 ltac:(lia)).
  pose proof (Z.div_mod Y 100 ltac:(lia)). pose proof (Z.div_mod (Y - 1) 100 ltac:(lia)).
  pose proof (Z.div_mod Y 400 ltac:(lia)). pose proof (Z.div_mod (Y - 1) 400 ltac:(lia)).
  pose proof (Z.mod_pos_bound Y 4 ltac:(lia)). pose proof (Z.mod_pos_bound (Y - 1) 4 ltac:(lia)).
  pose proof (Z.mod_pos_bound Y 100 ltac:(lia)). pose proof (Z.mod_pos_bound (Y - 1) 100 ltac:(lia)).
  pose proof (Z.mod_pos_bound Y 400 ltac:(lia)). pose proof (Z.mod_pos_bound (Y - 1) 400 ltac:(lia)).
  destruct (Z.eqb_spec (Y mod 4) 0), (Z.eqb_spec (Y mod 100) 0), (Z.eqb_spec (Y mod 400) 0);
    simpl; lia.
Qed.

Lemma month_length_shape (Y m : Z) :
  month_length Y m = month_length 1 m + (if (m =? 2) && is_leap Y then 1 else 0).
Proof.
  unfold month_length. destruct (m =? 2); simpl.
  - destruct (is_leap Y); reflexivity.
  - destruct ((m =? 4) || (m =? 6) || (m =? 9) || (m =? 11)); reflexivity.
Qed.

Lemma days_before_month_shape (Y m : Z) : 1 <= m <= 12 ->
  days_before_month Y m = days_before_month 1 m + (if (3 <=? m) && is_leap Y then 1 else 0).
Proof.
  intro H.
  assert (m = 1 \/ m = 2 \/ m = 3 \/ m = 4 \/ m = 5 \/ m = 6 \/ m = 7 \/ m = 8 \/
          m = 9 \/ m = 10 \/ m = 11 \/ m = 12) as Hm by lia.
  unfold days_before_month, month_length.
  repeat destruct Hm as [->|Hm]; subst; destruct (is_leap Y); reflexivity.
Qed.

Lemma era_year_range : all_in era_year_ok 0 400 = true.
Proof. vm_compute. reflexivity. Qed.

Lemma month_day_range : all_in month_day_ok 0 366 = true.
Proof. vm_compute. reflexivity. Qed.

Lemma year_of_era (doe : Z) : 0 <= doe <= 146096 ->
  0 <= yoe_of doe <= 399 /\ year_start (yoe_of doe) <= doe <= year_end (yoe_of doe) /\
  era_year_ok (yoe_of doe) = true.
Proof.
  intro Hd.
  assert (Hok : forall k, 0 <= k <= 399 ->
            yoe_of (year_start k) = k /\ yoe_of (year_end k) = k)
    by (intros k Hk; pose proof (all_in_spec _ 0 400 era_year_range k ltac:(simpl; lia)) as E;
        unfold era_year_ok in E; repeat rewrite andb_true_iff in E;
        destruct E as [[[E1 E2] _] _]; split; apply Z.eqb_eq; assumption).
  assert (Hr : 0 <= yoe_of doe <= 399).
  { split.
    - change 0 with (yoe_of 0) at 1. apply yoe_of_mono; lia.
    - change 399 with (yoe_of 146096). apply yoe_of_mono; lia. }
  set (k := yoe_of doe) in *.
  split; [exact Hr|]. split; [split|].
  - destruct (Z.eq_dec k 0) as [E|Hne]; [rewrite E; unfold year_start; simpl; lia|].
    destruct (Z_lt_le_dec doe (year_start k)) as [Hlt|]; [|assumption]. exfalso.
    destruct (Hok (k - 1) ltac:(lia)) as [_ He].
    unfold year_end in He.
    destruct (Z.eqb_spec (k - 1) 399) as [|_]; [lia|].
    replace (k - 1 + 1) with k in He by ring.
    pose proof (yoe_of_mono doe (year_start k - 1) ltac:(lia) ltac:(lia)). lia.
  - unfold year_end. destruct (Z.eqb_spec k 399) as [|Hne]; [lia|].
    destruct (Z_le_gt_dec doe (year_start (k + 1) - 1)) as [|Hgt]; [assumption|]. exfalso.
    destruct (Hok (k + 1) ltac:(lia)) as [Hs _].
    assert (H0 : 0 <= year_start (k + 1)).
    { unfold year_start. pose proof (Z.div_pos (k + 1) 4 ltac:(lia) ltac:(lia)).
      pose proof (Z.div_mod (k + 1) 100 ltac:(lia)). pose proof (Z.mod_pos_bound (k + 1) 100 ltac:(lia)).
      lia. }
    pose proof (yoe_of_mono (year_start (k + 1)) doe H0 ltac:(lia)).
    lia.
  - apply (all_in_spec _ 0 400 era_year_range). simpl. lia.
Qed.

Lemma civil_from_days_spec (days : Z) :
  let '(y, m, d) := civil_from_days days in
  valid_date y m d = true /\ gregorian_days y m d = days /\
  (days + 719468) / 146097 * 400 <= y <= (days + 719468) / 146097 * 400 + 400.
Proof.
  unfold civil_from_days. cbv zeta.
  set (z := days + 719468). set (era := z / 146097). set (doe := z - era * 146097).
  assert (Hdoe : 0 <= doe <= 146096).
  { pose proof (Z.div_mod z 146097 ltac:(lia)). pose proof (Z.mod_pos_bound z 146097 ltac:(lia)).
    unfold doe, era. lia. }
  change ((doe - doe / 1460 + doe / 36524 - doe / 146096) / 365) with (yoe_of doe).
  destruct (year_of_era doe Hdoe) as (Hy & Hse & Hok).
  set (yoe := yoe_of doe) in *.
  change (doe - (365 * yoe + yoe / 4 - yoe / 100)) with (doe - year_start yoe).
  unfold era_year_ok in Hok. repeat rewrite andb_true_iff in Hok.
  destruct Hok as [[[_ _] Hlen] Hg]. apply Z.eqb_eq in Hlen, Hg.
  set (doy := doe - year_start yoe).
  assert (Hdoy : 0 <= doy <= 364 + (if is_leap (yoe + 1) then 1 else 0)) by (unfold doy; lia).
  assert (Hmd : month_day_ok doy = true)
    by (apply (all_in_spec _ 0 366 month_day_range); simpl; destruct (is_leap (yoe + 1)); lia).
  unfold month_day_ok in Hmd. cbv zeta in Hmd.
  set (mp := (5 * doy + 2) / 153) in *.
  set (d := doy - (153 * mp + 2) / 5 + 1) in *.
  set (m := if mp <? 10 then mp + 3 else mp - 9) in *.
  repeat rewrite andb_true_iff in Hmd.
  destruct Hmd as [[[[Hm1 Hm2] Hd1] H365] Hcase].
  apply Z.leb_le in Hm1, Hm2, Hd1.
  (* March 1 of the March-based year *)
  assert (HG : gregorian_days (yoe + era * 400) 3 1 = days - doy).
  { replace (yoe + era * 400) with (yoe + 400 * era) by ring.
    rewrite gregorian_days_shift, Hg.
    pose proof (Z.div_mod z 146097 ltac:(lia)). unfold doy, doe, z in *. lia. }
  assert (Hb3 : days_before_month 1 3 = 59) by reflexivity.
  unfold gregorian_days in HG.
  rewrite (days_before_month_shape _ 3) in HG by lia. rewrite Hb3 in HG. change (3 <=? 3) with true in HG. cbn [andb] in HG.
  destruct (Z.leb_spec m 2) as [Hle|Hgt]; cbv iota beta.
  - (* January or February: the year after the March-based year *)
    destruct (Z.leb_spec 3 m) as [|_]; [lia|].
    apply andb_true_iff in Hcase. destruct Hcase as [Hdm Heq].
    apply Z.leb_le in Hdm. apply Z.eqb_eq in Heq.
    split; [|split; [|lia]].
    + unfold valid_date. rewrite month_length_shape.
      repeat (apply andb_true_iff; split); apply Z.leb_le; try lia.
      case_eq (doy =? 365); intro E365; rewrite E365 in H365, Hdm; cbv iota beta in H365, Hdm.
      * apply Z.eqb_eq in E365. apply Z.eqb_eq in H365. rewrite H365 in Hdm |- *. simpl.
        assert (M2 : month_length 1 2 = 28) by reflexivity.
        assert (L : is_leap (yoe + 1) = true)
          by (destruct (is_leap (yoe + 1)); [reflexivity | lia]).
        replace (yoe + era * 400 + 1) with (yoe + 1 + 400 * era) by ring.
        rewrite leap_shift, L. lia.
      * destruct ((m =? 2) && is_leap (yoe + era * 400 + 1)); lia.
    + unfold gregorian_days. rewrite (days_before_month_shape _ m) by lia.
      destruct (Z.leb_spec 3 m) as [|_]; [lia|]. cbn [andb].
      pose proof (leap_step (yoe + era * 400)) as LS.
      replace (yoe + era * 400 + 1 - 1) with (yoe + era * 400) by ring.
      destruct (is_leap (yoe + era * 400)); lia.
  - destruct (Z.leb_spec 3 m) as [_|]; [|lia].
    apply andb_true_iff in Hcase. destruct Hcase as [Hdm Heq].
    apply Z.leb_le in Hdm. apply Z.eqb_eq in Heq.
    split; [|split; [|lia]].
    + unfold valid_date. rewrite month_length_shape.
      destruct (Z.eqb_spec m 2) as [|_]; [lia|]. simpl.
      repeat (apply andb_true_iff; split); apply Z.leb_le; lia.
    + unfold gregorian_days. rewrite (days_before_month_shape _ m) by lia.
      destruct (Z.leb_spec 3 m) as [_|]; [|lia]. cbn [andb].
      destruct (is_leap (yoe + era * 400)); lia.
Qed.

(** X7: the day count to civil date conversion behind [strftime] always
    yields a valid Gregorian date, and that date is the given number of
    days after 1970-01-01. *)
Theorem civil_from_days_gregorian (days : Z) :
  let '(y, m, d) := civil_from_days days in
  valid_date y m d = true /\ gregorian_days y m d = days.
Proof.
  pose proof (civil_from_days_spec days) as H.
  destruct (civil_from_days days) as [[y m] d]. tauto.
Qed.

Lemma dec_length_range : all_in (fun y => String.length (dec y) =? 4)%nat 1600 801 = true.
Proof. vm_compute. reflexivity. Qed.

Lemma month_abbr_range : all_in (fun m => String.length (month_abbr m) =? 3)%nat 1 12 = true.
Proof. vm_compute. reflexivity. Qed.

(** X8: for every timestamp in the int64 range, the formatted [time]
    column ([%d/%b/%Y:%H:%M:%S]) is exactly 20 characters long. *)
Theorem strftime_length (ns : Z) :
  - (2 ^ 63 - 1) <= ns <= 2 ^ 63 - 1 -> String.length (strftime ns) = 20%nat.
Proof.
  intro Hns.
  assert (Hs : -9223372037 <= ns / ns_per_s <= 9223372036).
  { unfold ns_per_s. change (10 ^ 9) with 1000000000.
    change (2 ^ 63 - 1) with 9223372036854775807 in Hns.
    pose proof (Z.div_mod ns 1000000000 ltac:(lia)) as D.
    pose proof (Z.mod_pos_bound ns 1000000000 ltac:(lia)) as B. lia. }
  unfold strftime.
  set (secs := ns / ns_per_s) in *.
  assert (Hd : -106752 <= secs / 86400 <= 106751).
  { pose proof (Z.div_mod secs 86400 ltac:(lia)) as D.
    pose proof (Z.mod_pos_bound secs 86400 ltac:(lia)) as B. lia. }
  assert (He : 4 <= (secs / 86400 + 719468) / 146097 <= 5).
  { pose proof (Z.div_mod (secs / 86400 + 719468) 146097 ltac:(lia)) as D.
    pose proof (Z.mod_pos_bound (secs / 86400 + 719468) 146097 ltac:(lia)) as B. lia. }
  pose proof (civil_from_days_spec (secs / 86400)) as Hc.
  destruct (civil_from_days (secs / 86400)) as [[y m] d].
  destruct Hc as (Hv & _ & Hy).
  unfold valid_date in Hv. repeat rewrite andb_true_iff in Hv.
  destruct Hv as [[[Hm1 Hm2] Hd1] Hd2]. apply Z.leb_le in Hm1, Hm2, Hd1, Hd2.
  assert (Hml : month_length y m <= 31) by (unfold month_length; repeat destruct (_ =? _); simpl; try destruct (is_leap y); lia).
  pose proof (Z.mod_pos_bound secs 86400 ltac:(lia)) as B.
  repeat rewrite slength_app. simpl String.length.
  rewrite (pad2_length d) by lia.
  rewrite (proj1 (Nat.eqb_eq _ _) (all_in_spec _ 1 12 month_abbr_range m ltac:(simpl; lia))).
  rewrite (proj1 (Nat.eqb_eq _ _) (all_in_spec _ 1600 801 dec_length_range y ltac:(simpl; lia))).
  rewrite (pad2_length (secs mod 86400 / 3600)).
  2: { split; [apply Z.div_pos; lia | apply Z.div_lt_upper_bound; lia]. }
  rewrite (pad2_length (secs mod 86400 mod 3600 / 60)).
  2: { pose proof (Z.mod_pos_bound (secs mod 86400) 3600) as B2.
       split; [apply Z.div_pos; lia | apply Z.div_lt_upper_bound; lia]. }
  rewrite (pad2_length (secs mod 86400 mod 60)).
  2: { pose proof (Z.mod_pos_bound (secs mod 86400) 60). lia. }
  reflexivity.
Qed.

Lemma strftime_length_witness :
  (- (2 ^ 63 - 1) <= 804571304 * ns_per_s <= 2 ^ 63 - 1) /\
  String.length (strftime (804571304 * ns_per_s)) = 20%nat.
Proof.
  assert (H : - (2 ^ 63 - 1) <= 804571304 * ns_per_s <= 2 ^ 63 - 1)
    by (vm_compute; split; discriminate).
  split; [exact H | exact (strftime_length (804571304 * ns_per_s) H)].
Defined.

(** ** [analyze()] *)

Lemma filter_or_nil {A} (p q : A -> bool) (l : list A) :
  filter (fun x => p x || q x) l = [] -> filter p l = [].
Proof.
  induction l as [|x l IH]; simpl; [reflexivity|].
  destruct (p x); simpl; [discriminate|]. destruct (q x); [discriminate|]. exact IH.
Qed.

(** X9: the fallback of [analyze()] to error rows never changes the
    selection: the suspicious rows are always the rows with status >= 400
    or a suspicious word in the request. *)
Theorem suspicious_fallback_inert (t : list record) :
  select_suspicious t =
  filter (fun r => (400 <=? status r) || suspicious_request (request r)) t.
Proof.
  unfold select_suspicious.
  destruct (filter (fun r => (400 <=? status r) || suspicious_request (request r)) t) eqn:E;
    [|reflexivity].
  exact (filter_or_nil (fun r => 400 <=? status r) (fun r => suspicious_request (request r)) t E).
Qed.

Lemma try_models_spec {R : Type} (call : string -> R + string) (ms : list string) (le0 : string) :
  match try_models call ms le0 with
  | (Some resp, _, tried) =>
      exists pre m post, ms = (pre ++ m :: post)%list /\ tried = (pre ++ [m])%list /\ call m = inl resp /\
        forall m', In m' pre -> exists e, call m' = inr e
  | (None, le, tried) =>
      tried = ms /\ (forall m, In m ms -> exists e, call m = inr e) /\
      (ms = [] -> le = le0) /\ (ms <> [] -> call (last ms EmptyString) = inr le)
  end.
Proof.
  revert le0; induction ms as [|m ms IH]; intro le0; simpl.
  - split; [reflexivity | split; [intros _ [] | split; [reflexivity | intro C; congruence]]].
  - destruct (call m) as [resp|e] eqn:Ec.
    + exists [], m, ms. repeat split; [exact Ec | intros _ []].
    + specialize (IH e). destruct (try_models call ms e) as [[[resp|] le] tried].
      * destruct IH as [pre [m' [post (-> & -> & Hc & Hp)]]].
        exists (m :: pre), m', post. repeat split; [exact Hc|].
        intros x [<-|Hx]; [exists e; exact Ec | apply Hp, Hx].
      * destruct IH as (-> & Hall & Hnil & Hlast). split; [reflexivity|]. split.
        -- intros x [<-|Hx]; [exists e; exact Ec | apply Hall, Hx].
        -- split; [discriminate|]. intros _. destruct ms as [|m2 ms].
           ++ rewrite (Hnil eq_refl). exact Ec.
           ++ apply Hlast. discriminate.
Qed.

(** X10: the model loop of [analyze()] tries the models in list order and
    stops at the first success; when every model fails it has tried all
    five and the last error is that of the last model. *)
Theorem model_loop_order {R : Type} (call : string -> R + string) :
  match try_models call possible_models EmptyString with
  | (Some resp, _, tried) =>
      exists pre m post, possible_models = (pre ++ m :: post)%list /\ tried = (pre ++ [m])%list /\
        call m = inl resp /\ forall m', In m' pre -> exists e, call m' = inr e
  | (None, le, tried) =>
      tried = possible_models /\ (forall m, In m possible_models -> exists e, call m = inr e) /\
      call "gemini-1.0-pro" = inr le
  end.
Proof.
  pose proof (try_models_spec call possible_models EmptyString) as H.
  destruct (try_models call possible_models EmptyString) as [[[resp|] le] tried]; [exact H|].
  destruct H as (H1 & H2 & _ & H3). split; [exact H1|]. split; [exact H2|].
  apply H3. discriminate.
Qed.

(** X12: when every model call fails, [analyze()] returns the degraded
    result whose summary carries 'All models failed. Last error: ' and the
    error of the last model. *)
Theorem analyze_all_models_fail (sample : nat -> list record -> list record) (key : string)
  (generate : string -> string -> (string + string) + string)
  (json_loads : string -> string + string) (t : list record) (err : string -> string) :
  t <> [] -> key <> EmptyString -> (forall m p, generate m p = inr (err m)) ->
  analyze sample (Some key) generate json_loads (Table t) =
  Some (ADegraded (degraded_summary ("All models failed. Last error: " ++ err "gemini-1.0-pro"))).
Proof.
  intros Ht Hk Hg. destruct t as [|r t]; [congruence|].
  assert (Hm : match key with EmptyString => True | _ => False end -> False)
    by (destruct key; [intros _; apply Hk; reflexivity | intros []]).
  unfold analyze.
  destruct key as [|c k]; [exfalso; apply Hm; exact I|].
  cbv zeta.
  match goal with |- context [try_models ?call possible_models EmptyString] =>
    replace (try_models call possible_models EmptyString)
      with (@None (string + string), err "gemini-1.0-pro", possible_models)
      by (unfold possible_models; cbn [try_models]; rewrite !Hg; reflexivity) end.
  reflexivity.
Qed.

Lemma analyze_all_models_fail_witness :
  [mk_record None None "GET /admin" 403 (NFin 0) None] <> [] /\ "k" <> EmptyString /\
  (forall m p, (fun m (_ : string) => @inr (string + string) string ("404 " ++ m)) m p =
               inr ((fun m => "404 " ++ m) m)) /\
  analyze (fun _ l => l) (Some "k") (fun m _ => inr ("404 " ++ m)) (fun s => inl s)
    (Table [mk_record None None "GET /admin" 403 (NFin 0) None]) =
  Some (ADegraded (degraded_summary
    ("All models failed. Last error: " ++ (fun m => "404 " ++ m) "gemini-1.0-pro"))).
Proof.
  assert (H1 : [mk_record None None "GET /admin" 403 (NFin 0) None] <> []) by discriminate.
  assert (H2 : "k" <> EmptyString) by discriminate.
  assert (H3 : forall m p, (fun m (_ : string) => @inr (string + string) string ("404 " ++ m)) m p =
                           inr ((fun m => "404 " ++ m) m)) by reflexivity.
  split; [exact H1 | split; [exact H2 | split; [exact H3 |]]].
  exact (analyze_all_models_fail (fun _ l => l) "k" (fun m _ => inr ("404 " ++ m)) (fun s => inl s)
           [mk_record None None "GET /admin" 403 (NFin 0) None] (fun m => "404 " ++ m) H1 H2 H3).
Defined.

(** *** The fence removal of the answer text *)

Lemma sdrop_length (n : nat) (s : string) :
  String.length (sdrop n s) = (String.length s - n)%nat.
Proof.
  revert s; induction n as [|n IH]; intros [|c s]; simpl; try reflexivity.
  apply IH.
Qed.

Lemma prefixb_length (p s : string) : prefixb p s = true -> (String.length p <= String.length s)%nat.
Proof.
  intro H. apply prefixb_spec in H. destruct H as [suf ->]. rewrite slength_app. lia.
Qed.

Lemma replace_no_tick (f : nat) (s : string) :
  (String.length s <= f)%nat -> prefixb "`" s = false ->
  prefixb "`" (replace_aux f fence EmptyString s) = false.
Proof.
  destruct f as [|f]; intros Hl Hp; [exact Hp|].
  destruct s as [|c r]; [reflexivity|]. cbn [replace_aux].
  unfold fence. cbn [prefixb] in *. rewrite andb_true_r in Hp. rewrite Hp. cbn [andb].
  rewrite Hp. reflexivity.
Qed.

Lemma replace_no_ticks (f : nat) (s : string) :
  (String.length s <= f)%nat -> prefixb "``" s = false ->
  prefixb "``" (replace_aux f fence EmptyString s) = false.
Proof.
  destruct f as [|f]; intros Hl Hp; [exact Hp|].
  destruct s as [|c r]; [reflexivity|]. cbn [replace_aux]. unfold fence.
  cbn [prefixb] in *.
  destruct (Ascii.eqb "`" c) eqn:Ec; cbn [andb] in *; [|rewrite Ec; reflexivity].
  destruct r as [|b t']; [rewrite Ec; destruct f; reflexivity|].
  rewrite andb_true_r in Hp. rewrite Hp. cbn [andb]. rewrite Ec. cbn [andb].
  assert (P : prefixb "`" (String b t') = false)
    by (cbn [prefixb]; rewrite andb_true_r; exact Hp).
  pose proof (replace_no_tick f (String b t') ltac:(simpl in *; lia) P) as R.
  unfold fence in R. cbn [prefixb] in R. exact R.
Qed.

Lemma replace_no_fence (f : nat) (s : string) :
  (String.length s <= f)%nat -> containsb (replace_aux f fence EmptyString s) fence = false.
Proof.
  revert s; induction f as [|f IH]; intros s Hl.
  - destruct s; [reflexivity | simpl in Hl; lia].
  - destruct s as [|c r]; [reflexivity|]. cbn [replace_aux].
    destruct (prefixb fence (String c r)) eqn:P.
    + cbn [String.append]. apply IH. rewrite sdrop_length. apply prefixb_length in P. simpl in *. lia.
    + cbn [containsb]. rewrite (IH r) by (simpl in Hl; lia). rewrite orb_false_r.
      unfold fence in *. cbn [prefixb] in *.
      destruct (Ascii.eqb "`" c); cbn [andb] in *; [|reflexivity].
      apply replace_no_ticks; [simpl in Hl; lia|].
      destruct r as [|c' r]; [reflexivity|]. cbn [prefixb] in *. exact P.
Qed.

Lemma list_ascii_app (a b : string) :
  list_ascii_of_string (a ++ b) = (list_ascii_of_string a ++ list_ascii_of_string b)%list.
Proof. induction a as [|c a IH]; simpl; [reflexivity | rewrite IH; reflexivity]. Qed.

Lemma string_of_list_app (a b : list ascii) :
  string_of_list_ascii (a ++ b) = string_of_list_ascii a ++ string_of_list_ascii b.
Proof. induction a as [|c a IH]; simpl; [reflexivity | rewrite IH; reflexivity]. Qed.

Lemma lstrip_suffix (s : string) : exists pre, s = pre ++ lstrip s.
Proof.
  induction s as [|c s [pre IH]]; simpl; [exists EmptyString; reflexivity|].
  destruct (py_space c).
  - exists (String c pre). simpl. rewrite <- IH. reflexivity.
  - exists EmptyString. reflexivity.
Qed.

Lemma rstrip_prefix (s : string) : exists suf, s = rstrip s ++ suf.
Proof.
  unfold rstrip.
  destruct (lstrip_suffix (string_of_list_ascii (rev (list_ascii_of_string s)))) as [pre E].
  apply (f_equal list_ascii_of_string) in E.
  rewrite list_ascii_of_string_of_list_ascii, list_ascii_app in E.
  exists (string_of_list_ascii (rev (list_ascii_of_string pre))).
  rewrite <- string_of_list_app, <- rev_app_distr, <- E, rev_involutive,
    string_of_list_ascii_of_string.
  reflexivity.
Qed.

Lemma py_strip_infix (s : string) : exists a b, s = a ++ py_strip s ++ b.
Proof.
  destruct (lstrip_suffix s) as [a Ea]. destruct (rstrip_prefix (lstrip s)) as [b Eb].
  exists a, b. unfold py_strip. rewrite <- Eb. exact Ea.
Qed.

Lemma containsb_py_strip (s p : string) :
  containsb s p = false -> containsb (py_strip s) p = false.
Proof.
  intro H. destruct (containsb (py_strip s) p) eqn:E; [|reflexivity].
  apply containsb_spec in E. destruct E as [pre [suf E]].
  destruct (py_strip_infix s) as [a [b Es]].
  assert (C : containsb s p = true).
  { apply containsb_spec. exists (a ++ pre), (suf ++ b).
    rewrite Es, E. repeat rewrite sappend_assoc. reflexivity. }
  congruence.
Qed.

(** X13: when the stripped model reply starts with a code fence, the text
    handed to [json.loads] contains no code fence any more. *)
Theorem clean_text_unfenced (raw : string) :
  prefixb fence (py_strip raw) = true -> containsb (clean_text raw) fence = false.
Proof.
  intro H. unfold clean_text. rewrite H.
  apply containsb_py_strip. unfold py_replace at 1.
  apply replace_no_fence. lia.
Qed.

Lemma clean_text_unfenced_witness :
  prefixb fence (py_strip " ```json {} ```` ") = true /\
  containsb (clean_text " ```json {} ```` ") fence = false.
Proof.
  assert (H : prefixb fence (py_strip " ```json {} ```` ") = true) by reflexivity.
  split; [exact H | exact (clean_text_unfenced " ```json {} ```` " H)].
Defined.
